(** * build_reconstructor: from a package version to a commit

    A shallow embedding of the resolver of [build_reconstructor.py]:
    [Package.version] (a package file name decoded into a tag and a count
    of commits), [filter_commit] (the [BAD_MAGIC] marker in the low 32 bits
    of the count), [git], [safe_command] and [git_commit_from_offset] (the
    walk over the candidate tags and the choice of a line of [git log]).

    Python integers are unbounded, so they are [Z].  Python strings are
    [string]; of Python's character classes (white space, line boundaries,
    decimal digits) the ASCII part is modelled.  Exceptions are an inductive
    type and code that can raise returns a [result].  The code that talks to
    git runs in a state-and-exception monad [M] over a read-only [World]:
    the state is the working directory and the list of commands run so far,
    which is what lets a theorem say which candidates were tried.  Console
    output is not modelled.

    The file has the definitions first (Python's string methods, the
    program, the vocabulary of the statements, fixture repositories), then
    the properties: facts on strings and indices, the model on concrete
    values, the codec, running git, and the resolver branch by branch.
    The part headed "More of the program" covers what lies around the
    resolver: the shapes of file names [Package.version] takes, what
    [safe_command] and [git] let through, [git_checkout], the state the
    resolver leaves behind, the name of the clone, and [SpecFile]. *)

From Stdlib Require Import ZArith List String Ascii Bool Lia.
From Stdlib Require Import DecimalString.
Import ListNotations.

Local Open Scope string_scope.
Local Open Scope Z_scope.

(** ** Exceptions and results *)

Inductive exn : Type :=
| CalledProcessError (returncode : Z)   (* subprocess: non-zero exit status *)
| GitError (cause : exn)                (* class GitError(Exception) *)
| ValueError
| IndexError
| FileNotFoundError
| PermissionError
| UnicodeDecodeError.

Inductive result (A : Type) : Type :=
| Ok (a : A)
| Raise (e : exn).

Arguments Ok {A} a.
Arguments Raise {A} e.

Definition rbind {A B} (r : result A) (k : A -> result B) : result B :=
  match r with
  | Ok a => k a
  | Raise e => Raise e
  end.

Declare Scope result_scope.
Delimit Scope result_scope with result.
Notation "x <- r ;; k" := (rbind r (fun x => k))
  (at level 61, r at next level, right associativity) : result_scope.
Notation "' pat <- r ;; k" := (rbind r (fun x => match x with pat => k end))
  (at level 61, pat pattern, r at next level, right associativity) : result_scope.

(** ** Python's string methods *)

Module PyStr.

(** [sub in s] *)
Fixpoint contains (sub s : string) : bool :=
  match s with
  | EmptyString => prefix sub s
  | String _ s' => prefix sub s || contains sub s'
  end.

(** [s.split(sep)] and [s.split(sep, maxsplit)] for a non-empty [sep]
    (every separator of the program is a non-empty literal).  [skip]
    counts the characters of a separator just matched that are still to be
    dropped; [maxsplit = None] is Python's default [-1]. *)
Fixpoint split_go (sep : string) (maxsplit : option nat) (skip : nat)
         (s : string) : list string :=
  match s with
  | EmptyString => [EmptyString]
  | String c s' =>
      match skip with
      | S k => split_go sep maxsplit k s'
      | O =>
          match maxsplit with
          | Some O => [s]
          | _ =>
              if prefix sep s then
                EmptyString ::
                  split_go sep (option_map Nat.pred maxsplit)
                           (Nat.pred (String.length sep)) s'
              else
                match split_go sep maxsplit O s' with
                | p :: ps => String c p :: ps
                | [] => [String c EmptyString]
                end
          end
      end
  end.

Definition split (sep : string) (s : string) : list string :=
  split_go sep None O s.

Definition split_max (sep : string) (maxsplit : nat) (s : string) : list string :=
  split_go sep (Some maxsplit) O s.

(** [sep.join(l)] *)
Definition join (sep : string) (l : list string) : string :=
  String.concat sep l.

(** [str.isspace] on ASCII: tab, LF, VT, FF, CR, FS, GS, RS, US, space. *)
Definition is_space (c : ascii) : bool :=
  let n := nat_of_ascii c in
  ((9 <=? n) && (n <=? 13) || (28 <=? n) && (n <=? 32))%nat.

(** Line boundaries of [str.splitlines] on ASCII: LF, VT, FF, CR, FS, GS, RS. *)
Definition is_linebreak (c : ascii) : bool :=
  let n := nat_of_ascii c in
  ((10 <=? n) && (n <=? 13) || (28 <=? n) && (n <=? 30))%nat.

Definition CR : ascii := ascii_of_nat 13.
Definition LF : ascii := ascii_of_nat 10.

(** [s.splitlines()]: the lines without their boundaries, CR LF counting
    as one boundary, and no empty last line after a final boundary. *)
Fixpoint splitlines (s : string) : list string :=
  match s with
  | EmptyString => []
  | String c s' =>
      if is_linebreak c then
        EmptyString ::
          match s' with
          | String c' s'' =>
              if Ascii.eqb c CR && Ascii.eqb c' LF then splitlines s''
              else splitlines s'
          | EmptyString => []
          end
      else
        match splitlines s' with
        | l :: ls => String c l :: ls
        | [] => [String c EmptyString]
        end
  end.

(** Dropping the characters of a class at the end, and at the start. *)
Fixpoint rstrip_by (p : ascii -> bool) (s : string) : string :=
  match s with
  | EmptyString => EmptyString
  | String c s' =>
      match rstrip_by p s' with
      | EmptyString => if p c then EmptyString else String c EmptyString
      | r => String c r
      end
  end.

Fixpoint lstrip_by (p : ascii -> bool) (s : string) : string :=
  match s with
  | EmptyString => EmptyString
  | String c s' => if p c then lstrip_by p s' else s
  end.

(** [s.rstrip()] *)
Definition rstrip (s : string) : string := rstrip_by is_space s.

(** The white space that [int] skips around an ASCII literal, C's
    [isspace]: tab, LF, VT, FF, CR, space. *)
Definition is_c_space (c : ascii) : bool :=
  let n := nat_of_ascii c in
  ((9 <=? n) && (n <=? 13) || (n =? 32))%nat.

Definition digit_val (c : ascii) : option Z :=
  let n := nat_of_ascii c in
  if ((48 <=? n) && (n <=? 57))%nat then Some (Z.of_nat n - 48) else None.

(** The digits of a decimal literal: groups of digits separated by single
    underscores.  [after_us] tells that the previous character was an
    underscore. *)
Fixpoint digits_go (acc : Z) (after_us : bool) (s : string) : option Z :=
  match s with
  | EmptyString => if after_us then None else Some acc
  | String c s' =>
      match digit_val c with
      | Some d => digits_go (10 * acc + d) false s'
      | None =>
          if Ascii.eqb c "_" && negb after_us then digits_go acc true s'
          else None
      end
  end.

Definition digits (s : string) : option Z :=
  match s with
  | String c s' =>
      match digit_val c with
      | Some d => digits_go d false s'
      | None => None
      end
  | EmptyString => None
  end.

(** [int(s)] for an ASCII string [s]: surrounding white space, an optional
    sign, decimal digits (with no bound on their number, as before Python
    3.11).  [None] stands for the [ValueError] of an invalid literal. *)
Definition int (s : string) : option Z :=
  match rstrip_by is_c_space (lstrip_by is_c_space s) with
  | String "+" r => digits r
  | String "-" r => option_map Z.opp (digits r)
  | t => digits t
  end.

(** [str(n)] for an integer [n] *)
Definition str (n : Z) : string :=
  NilZero.string_of_int (Z.to_int n).

(** [os.path.basename(p)]: what follows the last slash. *)
Fixpoint basename (p : string) : string :=
  match p with
  | EmptyString => EmptyString
  | String c p' =>
      if contains "/" p' then basename p'
      else if Ascii.eqb c "/" then p' else p
  end.

(** [l[i]] with Python's negative indices; [None] stands for [IndexError]. *)
Definition index {A} (l : list A) (i : Z) : option A :=
  let n := Z.of_nat (List.length l) in
  if (0 <=? i) && (i <? n) then nth_error l (Z.to_nat i)
  else if (- n <=? i) && (i <? 0) then nth_error l (Z.to_nat (n + i))
  else None.

End PyStr.

(** ** The marker of the anomalous encoding *)

Definition BAD_MAGIC : Z := 0xFACEFEED.
Definition ESCAPE_CHARS : string := "\;&|".

(** [filter_commit(x)] *)
Definition filter_commit (x : Z) : Z * bool :=
  if Z.land x 0xffffffff =? BAD_MAGIC then (Z.shiftr x 32, true)
  else (x, false).

(** The encoding written by [Package.version]:
    [(int(post_commit) << 32) | BAD_MAGIC]. *)
Definition encode_anomalous (x : Z) : Z :=
  Z.lor (Z.shiftl x 32) BAD_MAGIC.

(** ** [Package.version] *)

Definition of_option {A} (e : exn) (o : option A) : result A :=
  match o with
  | Some a => Ok a
  | None => Raise e
  end.

(** [a, b = l]: unpacking into two names. *)
Definition unpack2 {A} (l : list A) : result (A * A) :=
  match l with
  | [a; b] => Ok (a, b)
  | _ => Raise ValueError
  end.

(** [_, b, _ = l] *)
Definition unpack3 {A} (l : list A) : result (A * A * A) :=
  match l with
  | [a; b; c] => Ok (a, b, c)
  | _ => Raise ValueError
  end.

Local Open Scope result_scope.

Definition version (filename : string) : result (string * Z) :=
  '(_, base, _) <- unpack3 (PyStr.split "-" (PyStr.basename filename)) ;;
  if PyStr.contains ".dev" base then
    '(tag, post_commit) <- unpack2 (PyStr.split ".dev" base) ;;
    n <- of_option ValueError (PyStr.int post_commit) ;;
    Ok (tag, n)
  else if PyStr.contains "dev" base then
    '(tag, post_commit) <- unpack2 (PyStr.split "dev" base) ;;
    '(major, minor) <- unpack2 (PyStr.split "." tag) ;;
    major <- of_option ValueError (PyStr.int major) ;;
    minor <- of_option ValueError (PyStr.int minor) ;;
    let minor := minor - 1 in
    let tag := "v" ++ PyStr.join "." [PyStr.str major; PyStr.str minor] in
    n <- of_option ValueError (PyStr.int post_commit) ;;
    Ok (tag, encode_anomalous n)
  else
    Ok (base, 0).

(** ** The world outside: the file system and the git executable *)

(** What running a command gives: the process ran to its end with an exit
    status and its output (standard output and error together, decoded), or
    running it or decoding its output raised. *)
Inductive proc_outcome : Type :=
| Completed (returncode : Z) (output : string)
| Failed (e : exn).

Record World : Type := {
  path_exists : string -> bool;                        (* os.path.exists *)
  run_process : string -> list string -> proc_outcome  (* in a directory *)
}.

(** The state the program changes: its working directory, and the commands
    it has run so far, oldest first. *)
Record state : Type := {
  cwd : string;
  calls : list (list string)
}.

Definition M (A : Type) : Type := state -> result A * state.

Definition ret {A} (a : A) : M A := fun st => (Ok a, st).
Definition raise {A} (e : exn) : M A := fun st => (Raise e, st).
Definition bind {A B} (m : M A) (k : A -> M B) : M B :=
  fun st =>
    match m st with
    | (Ok a, st') => k a st'
    | (Raise e, st') => (Raise e, st')
    end.
Definition lift {A} (r : result A) : M A := fun st => (r, st).

Declare Scope prog_scope.
Delimit Scope prog_scope with prog.
Notation "x <- m ;; k" := (bind m (fun x => k))
  (at level 61, m at next level, right associativity) : prog_scope.
Notation "' pat <- m ;; k" := (bind m (fun x => match x with pat => k end))
  (at level 61, pat pattern, m at next level, right associativity) : prog_scope.
Notation "m ;; k" := (bind m (fun _ => k))
  (at level 61, right associativity) : prog_scope.

(** [os.path.abspath(os.curdir)] *)
Definition getcwd : M string := fun st => (Ok (cwd st), st).

(** [os.chdir(path)]; paths are absolute, as the caller builds them. *)
Definition chdir (path : string) : M unit :=
  fun st => (Ok tt, {| cwd := path; calls := calls st |}).

(** [subprocess.check_output(cmd, stderr=subprocess.STDOUT).decode()] *)
Definition check_output (w : World) (cmd : list string) : M string :=
  fun st =>
    let st' := {| cwd := cwd st; calls := calls st ++ [cmd] |} in
    match run_process w (cwd st) cmd with
    | Completed rc out =>
        if rc =? 0 then (Ok out, st') else (Raise (CalledProcessError rc), st')
    | Failed e => (Raise e, st')
    end.

(** [safe_command(x)] *)
Definition safe_command (x : list string) : bool :=
  let cmdtmp := PyStr.join " " x in
  forallb (fun ch => negb (PyStr.contains (String ch EmptyString) cmdtmp))
          (list_ascii_of_string ESCAPE_CHARS).

Definition tasks : list string := ["clone"; "checkout"; "log"; "fetch"].

Local Open Scope prog_scope.

(** [git(task, *args)] *)
Definition git (w : World) (task : string) (args : list string) : M string :=
  let cmd := "git" :: task :: args in
  if negb (safe_command cmd) then raise ValueError
  else if negb (existsb (String.eqb task) tasks) then raise ValueError
  else
    fun st =>
      match check_output w cmd st with
      | (Raise (CalledProcessError rc), st') =>
          (Raise (GitError (CalledProcessError rc)), st')
      | r => r
      end.

(** The value of [result] in [git_commit_from_offset]: the string it starts
    as, or the list of lines of a log. *)
Inductive log_result : Type :=
| Str (s : string)
| Lines (l : list string).

(** [len(result)] *)
Definition len (r : log_result) : Z :=
  match r with
  | Str s => Z.of_nat (String.length s)
  | Lines l => Z.of_nat (List.length l)
  end.

(** [result[i]] *)
Definition getitem (r : log_result) (i : Z) : result string :=
  match r with
  | Str s =>
      of_option IndexError
        (option_map (fun c => String c EmptyString)
                    (PyStr.index (list_ascii_of_string s) i))
  | Lines l => of_option IndexError (PyStr.index l i)
  end.

(** The candidate tags, [tags] in [git_commit_from_offset]. *)
Definition tag_candidates (name tag : string) : list string :=
  [tag; "v" ++ tag; PyStr.join "-" [name; tag]; name ++ "-" ++ "v" ++ tag].

(** The loop of the branch [not post_commit]: the first line of the log of
    the first tag that git accepts; [GitError] moves on to the next tag, any
    other exception leaves the loop and the function. *)
Fixpoint first_line_loop (w : World) (tags : list string) (result : string)
  : M string :=
  match tags with
  | [] => ret result
  | salvo :: tags' =>
      fun st =>
        match (out <- git w "log" ["--oneline"; salvo] ;;
               lift (of_option IndexError
                       (PyStr.index (PyStr.splitlines out) 0))) st with
        | (Ok line, st') => (Ok line, st')                          (* break *)
        | (Raise (GitError _), st') => first_line_loop w tags' result st'  (* continue *)
        | (Raise e, st') => (Raise e, st')
        end
  end.

(** The loop of the last branch: all the lines of the log of the first tag
    that git accepts. *)
Fixpoint lines_loop (w : World) (tags : list string) (result : log_result)
  : M log_result :=
  match tags with
  | [] => ret result
  | salvo :: tags' =>
      fun st =>
        match (out <- git w "log" ["--oneline"; salvo] ;;
               ret (Lines (PyStr.splitlines out))) st with
        | (Ok r, st') => (Ok r, st')                                (* break *)
        | (Raise (GitError _), st') => lines_loop w tags' result st'      (* continue *)
        | (Raise e, st') => (Raise e, st')
        end
  end.

(** [git_commit_from_offset(path, tag, post_commit)] *)
Definition git_commit_from_offset (w : World) (path tag : string)
           (post_commit : Z) : M string :=
  cwd <- getcwd ;;
  if negb (path_exists w path) then raise FileNotFoundError
  else
    chdir path ;;
    name <- lift (of_option IndexError
                    (PyStr.index (PyStr.split "-" (PyStr.basename path)) 0)) ;;
    let tags := tag_candidates name tag in
    if post_commit =? 0 then
      result <- first_line_loop w tags "" ;;
      '(rev, message) <- lift (unpack2 (PyStr.split_max " " 1 result)) ;;
      chdir cwd ;;
      ret rev
    else
      let '(magic_post_commit, bad_magic) := filter_commit post_commit in
      if bad_magic then
        out <- git w "log" ["--oneline"] ;;
        let result := PyStr.splitlines out in
        line <- lift (of_option IndexError (PyStr.index result magic_post_commit)) ;;
        '(rev, message) <- lift (unpack2 (PyStr.split_max " " 1 line)) ;;
        chdir cwd ;;
        ret rev
      else
        result <- lines_loop w tags (Str "") ;;
        let tail := len result in
        line <- lift (getitem result (tail - post_commit)) ;;
        '(rev, message) <- lift (unpack2 (PyStr.split_max " " 1 (PyStr.rstrip line))) ;;
        chdir cwd ;;
        ret rev.

(** ** The history query, as the resolver uses it *)

(** The arguments of [git log] for a ref, or for the current branch. *)
Definition log_args (ref : option string) : list string :=
  "--oneline" :: match ref with Some r => [r] | None => [] end.

Definition log_cmd (ref : option string) : list string :=
  "git" :: "log" :: log_args ref.

(** What [git('log', '--oneline', ref)] answers in directory [dir]. *)
Definition query_log (w : World) (dir : string) (ref : option string)
  : result string :=
  fst (git w "log" (log_args ref) {| cwd := dir; calls := [] |}).

(** The state after running commands [cmds] and ending in directory [dir]. *)
Definition ran (st : state) (dir : string) (cmds : list (list string)) : state :=
  {| cwd := dir; calls := calls st ++ cmds |}.

(** The first hyphen-delimited token of the directory name, [name] in
    [git_commit_from_offset]. *)
Definition repo_name (path : string) : string :=
  hd EmptyString (PyStr.split "-" (PyStr.basename path)).

(** A log line [<hash> <subject>]: no space inside the hash. *)
Definition log_line (hash subject : string) : string :=
  hash ++ " " ++ subject.

(** The entry at position [i] of a list, positions counted from 0 at the
    head (the newest commit of a log); there is none at a negative [i]. *)
Definition entry_at {A} (l : list A) (i : Z) : option A :=
  if i <? 0 then None else nth_error l (Z.to_nat i).

(** A query that ran to a non-zero exit status, whatever git printed. *)
Definition exits_nonzero (w : World) (dir : string) (tag : string) : Prop :=
  safe_command (log_cmd (Some tag)) = true /\
  exists rc out, rc <> 0 /\
    run_process w dir (log_cmd (Some tag)) = Completed rc out.

(** The commands [git] really starts for a query: none when [safe_command]
    refuses the command line. *)
Definition started (ref : option string) : list (list string) :=
  if safe_command (log_cmd ref) then [log_cmd ref] else [].

(** A tag that git refuses: its query raises [GitError]. *)
Definition refused (w : World) (dir : string) (tag : string) : Prop :=
  exists e, query_log w dir (Some tag) = Raise (GitError e).

(** The queries for a list of tags, in order. *)
Definition tag_cmds (tags : list string) : list (list string) :=
  map (fun t => log_cmd (Some t)) tags.

(** A character occurs in a string. *)
Fixpoint has_char (c : ascii) (s : string) : bool :=
  match s with
  | EmptyString => false
  | String c' s' => Ascii.eqb c c' || has_char c s'
  end.

(** A plain decimal numeral: decimal digits, at least one. *)
Fixpoint all_digits (s : string) : bool :=
  match s with
  | EmptyString => true
  | String c s' =>
      match PyStr.digit_val c with
      | Some _ => all_digits s'
      | None => false
      end
  end.

Definition numeral (s : string) : Prop :=
  s <> EmptyString /\ all_digits s = true.

(** The marker [Package.version] splits the base at: [.dev] when the base
    contains it, else [dev] when the base contains that, else none. *)
Definition marker (base : string) : option string :=
  if PyStr.contains ".dev" base then Some ".dev"
  else if PyStr.contains "dev" base then Some "dev"
  else None.

(** The end of the last branch of [git_commit_from_offset], after its loop:
    index from the end, strip, split, and go back to directory [back]. *)
Definition pick (result : log_result) (post_commit : Z) (back : string)
  : M string :=
  (line <- lift (getitem result (len result - post_commit)) ;;
   '(rev, message) <-
      lift (unpack2 (PyStr.split_max " " 1 (PyStr.rstrip line))) ;;
   chdir back ;; ret rev)%prog.

(** ** The rest of the program: cloning, checking out, naming the clone *)

(** How often a character occurs in a string. *)
Fixpoint count_char (c : ascii) (s : string) : nat :=
  match s with
  | EmptyString => O
  | String x s' => if Ascii.eqb c x then S (count_char c s') else count_char c s'
  end.

(** [git_clone(url, path)] *)
Definition git_clone (w : World) (url path : string) : M unit :=
  (git w "clone" [url; path] ;; ret tt)%prog.


(** [path.endswith('/')] *)
Fixpoint ends_with_slash (path : string) : bool :=
  match path with
  | EmptyString => false
  | String c EmptyString => Ascii.eqb c "/"
  | String _ path' => ends_with_slash path'
  end.

(** [os.path.join(a, b)] *)
Definition path_join (a b : string) : string :=
  if prefix "/" b then b
  else if String.eqb a EmptyString || ends_with_slash a then a ++ b
  else a ++ "/" ++ b.

(** The directory the main program clones a package into: [dest], built from
    the temporary directory, the name in the metadata, the tag and the
    count of [Package.version]. *)
Definition clone_dest (tempdir name tag : string) (post_commit : Z) : string :=
  let '(magic_post_commit, bad_magic) := filter_commit post_commit in
  if bad_magic then
    path_join tempdir (PyStr.join "-" [name; tag; PyStr.str magic_post_commit])
  else
    path_join tempdir (PyStr.join "-" [name; tag; PyStr.str post_commit]).

(** An argument that holds none of the characters of [ESCAPE_CHARS]. *)
Definition escape_free (arg : string) : bool :=
  forallb (fun ch => negb (has_char ch arg)) (list_ascii_of_string ESCAPE_CHARS).

(** A string with no white space in it. *)
Fixpoint no_space (s : string) : bool :=
  match s with
  | EmptyString => true
  | String c s' => negb (PyStr.is_space c) && no_space s'
  end.

(** The commands started for the first [k] of a list of tags. *)
Definition started_for (k : nat) (tags : list string) : list (list string) :=
  flat_map (fun t => started (Some t)) (firstn k tags).

(** ** [SpecFile]: the package URLs of an environment dump *)

Inductive spec_exn : Type :=
| SpecFileError                 (* class SpecFileError(Exception) *)
| SpecFileFormatError           (* class SpecFileFormatError(Exception) *)
| OpenError (e : exn).          (* [open] or [read] raised *)

Inductive spec_result (A : Type) : Type :=
| SpecOk (a : A)
| SpecRaise (e : spec_exn).

Arguments SpecOk {A} a.
Arguments SpecRaise {A} e.

(** The list the attribute [urls] is bound to: the list it was created
    with, or, after [self.urls = self.include_pkgs] or
    [self.urls = self.include_urls], the very list of the other attribute,
    so that an append to either shows in both. *)
Inductive urls_binding : Type := OwnUrls | SameAsPkgs | SameAsUrls.

Record SpecFile : Type := {
  own_urls : list string;
  include_pkgs : list string;
  include_urls : list string;
  urls_bound : urls_binding;
  data : list string
}.

(** [self.urls] *)
Definition urls (sf : SpecFile) : list string :=
  match urls_bound sf with
  | OwnUrls => own_urls sf
  | SameAsPkgs => include_pkgs sf
  | SameAsUrls => include_urls sf
  end.

(** [self.include_urls.append(url)] *)
Definition append_include_urls (url : string) (sf : SpecFile) : SpecFile :=
  {| own_urls := own_urls sf;
     include_pkgs := include_pkgs sf;
     include_urls := include_urls sf ++ [url];
     urls_bound := urls_bound sf;
     data := data sf |}.

(** [self.include_pkgs.append(url)] *)
Definition append_include_pkgs (url : string) (sf : SpecFile) : SpecFile :=
  {| own_urls := own_urls sf;
     include_pkgs := include_pkgs sf ++ [url];
     include_urls := include_urls sf;
     urls_bound := urls_bound sf;
     data := data sf |}.

(** [self.urls.append(url)]: an append to the list [urls] is bound to. *)
Definition append_urls (url : string) (sf : SpecFile) : SpecFile :=
  match urls_bound sf with
  | OwnUrls =>
      {| own_urls := own_urls sf ++ [url];
         include_pkgs := include_pkgs sf;
         include_urls := include_urls sf;
         urls_bound := OwnUrls;
         data := data sf |}
  | SameAsPkgs => append_include_pkgs url sf
  | SameAsUrls => append_include_urls url sf
  end.

(** [self.urls = self.include_pkgs] and [self.urls = self.include_urls] *)
Definition bind_urls (b : urls_binding) (sf : SpecFile) : SpecFile :=
  {| own_urls := own_urls sf;
     include_pkgs := include_pkgs sf;
     include_urls := include_urls sf;
     urls_bound := b;
     data := data sf |}.

(** The truth value of a list: it is not empty. *)
Definition truthy {A} (l : list A) : bool :=
  match l with
  | [] => false
  | _ :: _ => true
  end.

(** The lines the loop passes over: empty, comments, directives. *)
Definition skipped_line (url : string) : bool :=
  String.eqb url EmptyString || prefix "#" url || prefix "@" url.

(** One turn of [for pattern in include_only_urls]. *)
Definition match_url (url : string) (sf : SpecFile) (pattern : string) : SpecFile :=
  if PyStr.contains pattern url then append_include_urls url sf else sf.

(** One turn of [for pattern in include_only]. *)
Definition match_pkg (url tarball : string) (sf : SpecFile) (pattern : string)
  : SpecFile :=
  if prefix (pattern ++ "-") tarball then
    if negb (existsb (String.eqb pattern) (urls sf)) then
      append_include_pkgs url sf
    else sf
  else sf.

(** One turn of [for url in self.data]. *)
Definition spec_line (include_only include_only_urls : list string)
           (sf : SpecFile) (line : string) : SpecFile :=
  let url := PyStr.rstrip line in
  let tarball := PyStr.basename url in
  if skipped_line url then sf
  else
    let sf :=
      if truthy include_only_urls
      then fold_left (match_url url) include_only_urls sf else sf in
    let sf :=
      if truthy include_only
      then fold_left (match_pkg url tarball) include_only sf else sf in
    if truthy include_only && truthy include_only_urls then bind_urls SameAsPkgs sf
    else if truthy include_only then bind_urls SameAsPkgs sf
    else if truthy include_only_urls then bind_urls SameAsUrls sf
    else append_urls url sf.

(** [SpecFile.check_format()], on what reading the file gave. *)
Definition check_format (read : result string) : spec_result unit :=
  match read with
  | Raise e => SpecRaise (OpenError e)
  | Ok text =>
      if negb (PyStr.contains "@EXPLICIT" text) then SpecRaise SpecFileFormatError
      else SpecOk tt
  end.

(** [SpecFile.__init__(filename, include_only, include_only_urls)]; [read]
    gives the text of a file, the same at both readings. *)
Definition SpecFile_init (read : string -> result string) (filename : string)
           (include_only include_only_urls : list string) : spec_result SpecFile :=
  match check_format (read filename) with
  | SpecRaise e => SpecRaise e
  | SpecOk _ =>
      match read filename with
      | Raise e => SpecRaise (OpenError e)
      | Ok text =>
          let data := PyStr.splitlines text in
          if negb (truthy data) then SpecRaise SpecFileError
          else
            SpecOk (fold_left (spec_line include_only include_only_urls) data
                              {| own_urls := [];
                                 include_pkgs := [];
                                 include_urls := [];
                                 urls_bound := OwnUrls;
                                 data := data |})
      end
  end.

(** What iterating over a [SpecFile] yields, or the exception of building
    it. *)
Definition spec_urls (read : string -> result string) (filename : string)
           (include_only include_only_urls : list string)
  : spec_result (list string) :=
  match SpecFile_init read filename include_only include_only_urls with
  | SpecOk sf => SpecOk (urls sf)
  | SpecRaise e => SpecRaise e
  end.

(** The lines of a text that the loop of [SpecFile] works on. *)
Definition kept_lines (text : string) : list string :=
  filter (fun url => negb (skipped_line url))
         (map PyStr.rstrip (PyStr.splitlines text)).

(** A URL, once for each pattern that occurs in it. *)
Definition url_matches (patterns : list string) (url : string) : list string :=
  flat_map (fun p => if PyStr.contains p url then [url] else []) patterns.

(** A URL, once for each pattern that its file name starts with, a hyphen
    following. *)
Definition pkg_matches (patterns : list string) (url : string) : list string :=
  flat_map (fun p => if prefix (p ++ "-") (PyStr.basename url) then [url] else [])
           patterns.

(** Two states of a [SpecFile] that differ at most in [include_urls], with
    [urls] not bound to it. *)
Definition same_but_include_urls (a b : SpecFile) : Prop :=
  own_urls a = own_urls b /\ include_pkgs a = include_pkgs b
  /\ urls_bound a = urls_bound b /\ urls_bound a <> SameAsUrls.

(** ** Fixture repositories *)

Definition NL : string := String PyStr.LF EmptyString.

Definition cmd_eqb (a b : list string) : bool :=
  if list_eq_dec string_dec a b then true else false.

(** The history reachable from tag [v1.0.0], and the history of the current
    branch, three commits further; newest first, as [git log --oneline]
    prints them. *)
Definition tag_history : string :=
  "c2 Release 1.0.0" ++ NL ++ "c1 Initial commit" ++ NL.

Definition head_history : string :=
  "c5 Add docs" ++ NL ++ "c4 Fix build" ++ NL ++ "c3 Start 1.1" ++ NL
  ++ tag_history.

Definition unknown_revision : string :=
  "fatal: ambiguous argument: unknown revision or path not in the working tree."
  ++ NL.

Definition repo : string := "/work/foo-1.0.0-0".

(** A clone of package [foo] whose only tag is [v1.0.0]. *)
Definition fixture : World := {|
  path_exists := fun p => String.eqb p repo;
  run_process := fun dir cmd =>
    if negb (String.eqb dir repo) then Failed FileNotFoundError
    else if cmd_eqb cmd (log_cmd (Some "v1.0.0")) then Completed 0 tag_history
    else if cmd_eqb cmd (log_cmd None) then Completed 0 head_history
    else Completed 128 unknown_revision
|}.

(** The same clone with a damaged object store: tag [1.0.0] exists too, but
    walking its history stops on an object that cannot be read. *)
Definition damaged_object : string :=
  "error: Could not read 8a3f5c1" ++ NL
  ++ "fatal: Failed to traverse parents of commit 5d2e9b7" ++ NL.

Definition damaged : World := {|
  path_exists := fun p => String.eqb p repo;
  run_process := fun dir cmd =>
    if cmd_eqb cmd (log_cmd (Some "1.0.0")) then Completed 128 damaged_object
    else run_process fixture dir cmd
|}.

(** The same clone on a machine where the git executable cannot be started
    for the query of [v1.0.0]. *)
Definition unstartable : World := {|
  path_exists := fun p => String.eqb p repo;
  run_process := fun dir cmd =>
    if cmd_eqb cmd (log_cmd (Some "v1.0.0")) then Failed PermissionError
    else run_process fixture dir cmd
|}.

Definition st0 : state := {| cwd := "/home/builder"; calls := [] |}.

(** A clone whose oldest commit has an empty subject: git prints its hash
    and a space. *)
Definition untitled : World := {|
  path_exists := fun p => String.eqb p repo;
  run_process := fun dir cmd =>
    if cmd_eqb cmd (log_cmd (Some "v1.0.0"))
    then Completed 0 ("c2 Release 1.0.0" ++ NL ++ "c1 " ++ NL)
    else Completed 128 unknown_revision
|}.

(** A clone in which [git log --oneline 1.0.0] succeeds and prints nothing,
    as it does when [1.0.0] names a file that no commit touches. *)
Definition silent : World := {|
  path_exists := fun p => String.eqb p repo;
  run_process := fun dir cmd =>
    if cmd_eqb cmd (log_cmd (Some "1.0.0")) then Completed 0 EmptyString
    else run_process fixture dir cmd
|}.

(** An environment dump with three packages. *)
Definition dump : string :=
  "# This file may be used to create an environment using:" ++ NL
  ++ "@EXPLICIT" ++ NL
  ++ "https://repo.example/main/numpy-1.18.0-0.tar.bz2  " ++ NL
  ++ "https://repo.example/main/numpy-base-1.18.0-0.tar.bz2" ++ NL
  ++ NL
  ++ "https://repo.example/free/scipy-1.5.2-0.tar.bz2" ++ NL.

Definition read_dump (filename : string) : result string :=
  if String.eqb filename "env.txt" then Ok dump else Raise FileNotFoundError.

(** * Properties *)

(** ** Strings *)

Section StringFacts.

Lemma prefix_space (c : ascii) (s : string) :
  prefix " " (String c s) = Ascii.eqb " " c.
Proof.
  change (prefix " " (String c s))
    with (if ascii_dec " " c then prefix EmptyString s else false).
  destruct (ascii_dec " " c) as [<-|Hne].
  - now destruct s.
  - symmetry. now apply Ascii.eqb_neq.
Qed.

Lemma contains_cons_false (sub : string) (c : ascii) (s : string) :
  PyStr.contains sub (String c s) = false ->
  prefix sub (String c s) = false /\ PyStr.contains sub s = false.
Proof.
  cbn [PyStr.contains]. intros H. now apply orb_false_iff in H.
Qed.

(** Splitting once at the first space of a log line. *)
Lemma split_log_line (hash subject : string) :
  PyStr.contains " " hash = false ->
  PyStr.split_max " " 1 (log_line hash subject) = [hash; subject].
Proof.
  unfold PyStr.split_max, log_line.
  induction hash as [|c h IH]; intros Hno.
  - cbn. now destruct subject.
  - apply contains_cons_false in Hno. destruct Hno as [Hp Hc].
    change (String c h ++ " " ++ subject) with (String c (h ++ " " ++ subject)).
    cbn [PyStr.split_go].
    rewrite prefix_space in *. rewrite Hp.
    now rewrite (IH Hc).
Qed.



(** [split] never gives an empty list, so [...split('-')[0]] is defined. *)
Lemma split_go_not_nil sep m k s : PyStr.split_go sep m k s <> [].
Proof.
  revert m k. induction s as [|c s IH]; intros m k;
    cbn [PyStr.split_go]; [discriminate|].
  destruct k; [|apply IH].
  destruct m as [[|m]|]; [discriminate| |];
    (destruct (prefix sep (String c s)); [discriminate|]);
    match goal with
    | |- context [match ?x with _ => _ end] => destruct x
    end; discriminate.
Qed.

Lemma repo_name_index (path : string) :
  PyStr.index (PyStr.split "-" (PyStr.basename path)) 0 = Some (repo_name path).
Proof.
  unfold repo_name, PyStr.split.
  pose proof (split_go_not_nil "-" None 0 (PyStr.basename path)) as H.
  destruct (PyStr.split_go "-" None 0 (PyStr.basename path)) as [|x l];
    [contradiction|].
  unfold PyStr.index. cbn [List.length hd].
  replace ((0 <=? 0) && (0 <? Z.of_nat (S (List.length l)))) with true
    by (symmetry; apply andb_true_iff; split; [apply Z.leb_le|apply Z.ltb_lt]; lia).
  reflexivity.
Qed.

(** Indexing with an index inside the list, and with a negative one. *)
Lemma index_nonneg {A} (l : list A) (i : Z) :
  0 <= i < Z.of_nat (List.length l) ->
  PyStr.index l i = nth_error l (Z.to_nat i).
Proof.
  intros H. unfold PyStr.index.
  replace ((0 <=? i) && (i <? Z.of_nat (List.length l))) with true; [reflexivity|].
  symmetry; apply andb_true_iff; split; [apply Z.leb_le|apply Z.ltb_lt]; lia.
Qed.

Lemma index_negative {A} (l : list A) (i : Z) :
  - Z.of_nat (List.length l) <= i < 0 ->
  PyStr.index l i = nth_error l (Z.to_nat (Z.of_nat (List.length l) + i)).
Proof.
  intros H. unfold PyStr.index.
  replace ((0 <=? i) && (i <? Z.of_nat (List.length l))) with false.
  - replace ((- Z.of_nat (List.length l) <=? i) && (i <? 0)) with true; [reflexivity|].
    symmetry; apply andb_true_iff; split; [apply Z.leb_le|apply Z.ltb_lt]; lia.
  - symmetry; apply andb_false_iff. left. apply Z.leb_gt. lia.
Qed.

Lemma index_out_of_range {A} (l : list A) (i : Z) :
  i < - Z.of_nat (List.length l) \/ Z.of_nat (List.length l) <= i ->
  PyStr.index l i = None.
Proof.
  intros H. unfold PyStr.index.
  destruct ((0 <=? i) && (i <? Z.of_nat (List.length l))) eqn:E1.
  - apply andb_true_iff in E1. destruct E1 as [E1 E2].
    apply Z.leb_le in E1. apply Z.ltb_lt in E2. lia.
  - destruct ((- Z.of_nat (List.length l) <=? i) && (i <? 0)) eqn:E2; [|reflexivity].
    apply andb_true_iff in E2. destruct E2 as [E2 E3].
    apply Z.leb_le in E2. apply Z.ltb_lt in E3.
    apply andb_false_iff in E1. destruct E1 as [E1|E1].
    + apply Z.leb_gt in E1. lia.
    + apply Z.ltb_ge in E1. lia.
Qed.

Lemma index_head {A} (x : A) (l : list A) : PyStr.index (x :: l) 0 = Some x.
Proof. rewrite index_nonneg; [reflexivity|]. cbn [List.length]. lia. Qed.


Lemma entry_at_index {A} (l : list A) (i : Z) (x : A) :
  entry_at l i = Some x -> PyStr.index l i = Some x.
Proof.
  unfold entry_at. destruct (i <? 0) eqn:E; [discriminate|].
  apply Z.ltb_ge in E. intros H.
  rewrite index_nonneg; [exact H|].
  assert (Hlt : (Z.to_nat i < List.length l)%nat)
    by (apply nth_error_Some; congruence).
  lia.
Qed.


Lemma index_in_range {A} (l : list A) (i : Z) :
  - Z.of_nat (List.length l) <= i < Z.of_nat (List.length l) ->
  exists x, PyStr.index l i = Some x.
Proof.
  intros H. destruct (Z_lt_le_dec i 0) as [Hneg|Hpos].
  - rewrite index_negative by lia.
    destruct (nth_error l _) eqn:E; [eauto|].
    apply nth_error_None in E. lia.
  - rewrite index_nonneg by lia.
    destruct (nth_error l _) eqn:E; [eauto|].
    apply nth_error_None in E. lia.
Qed.

End StringFacts.

(** ** The model on concrete values *)

Section Checks.

Example split_hyphens : PyStr.split "-" "a--b-" = ["a"; ""; "b"; ""].
Proof. reflexivity. Qed.

Example split_overlapping : PyStr.split "aa" "aaaaa" = [""; ""; "a"].
Proof. reflexivity. Qed.

Example split_once : PyStr.split_max " " 1 "c2 Release 1.0.0" = ["c2"; "Release 1.0.0"].
Proof. reflexivity. Qed.

Example split_once_empty : PyStr.split_max " " 1 "" = [""].
Proof. reflexivity. Qed.

Example splitlines_boundaries :
  PyStr.splitlines ("ab" ++ NL ++ "cd" ++ String PyStr.CR NL ++ NL ++ "e")
    = ["ab"; "cd"; ""; "e"].
Proof. reflexivity. Qed.

Example splitlines_final_boundary : PyStr.splitlines ("ab" ++ NL) = ["ab"].
Proof. reflexivity. Qed.

Example rstrip_blanks : PyStr.rstrip "ab c   " = "ab c".
Proof. reflexivity. Qed.

Example int_literals :
  map PyStr.int [" +1_000 "; "007"; "-12"; "1__0"; "1_"; "-"; ""; "1 2"]
    = [Some 1000; Some 7; Some (-12); None; None; None; None; None].
Proof. reflexivity. Qed.

Example str_numbers : map PyStr.str [0; 37; -1] = ["0"; "37"; "-1"].
Proof. reflexivity. Qed.

Example basename_url :
  PyStr.basename "https://example.org/pkgs/astropy-4.1dev500-0.tar.bz2"
    = "astropy-4.1dev500-0.tar.bz2".
Proof. reflexivity. Qed.

Example index_from_the_end :
  map (PyStr.index ["c3"; "c2"; "c1"]) [0; 2; 3; -1; -3; -4]
    = [Some "c3"; Some "c1"; None; Some "c1"; Some "c3"; None].
Proof. reflexivity. Qed.

Example version_dot_dev : version "numpy-1.18.0.dev37-0" = Ok ("1.18.0", 37).
Proof. reflexivity. Qed.

Example version_release : version "scipy-1.5.2-0" = Ok ("1.5.2", 0).
Proof. reflexivity. Qed.

Example version_dev :
  version "astropy-4.1dev500-0" = Ok ("v4.0", 500 * 2 ^ 32 + 0xFACEFEED).
Proof. reflexivity. Qed.

Example version_minor_zero : version "astropy-4.0dev5-0" = Ok ("v4.-1", encode_anomalous 5).
Proof. reflexivity. Qed.

Example version_hyphen_in_name : version "scikit-learn-0.23.1-0" = Raise ValueError.
Proof. reflexivity. Qed.

Example filter_commit_collision : filter_commit 0xFACEFEED = (0, true).
Proof. reflexivity. Qed.

Example filter_commit_negative : filter_commit (encode_anomalous (-1)) = (-1, true).
Proof. reflexivity. Qed.

Example safe_command_semicolon :
  safe_command (log_cmd (Some "1.0;x")) = false.
Proof. reflexivity. Qed.

Example tag_candidates_foo :
  tag_candidates "foo" "1.2.3" = ["1.2.3"; "v1.2.3"; "foo-1.2.3"; "foo-v1.2.3"].
Proof. reflexivity. Qed.

Example repo_name_hyphen_in_name : repo_name "/tmp/scikit-learn-0.23.1-0" = "scikit".
Proof. reflexivity. Qed.

End Checks.

(** ** Splitting names of the expected shape *)

Section Shapes.

Lemma prefix_self (sep b : string) : prefix sep (sep ++ b) = true.
Proof.
  induction sep as [|c sep IH]; [now destruct b|].
  change (String c sep ++ b) with (String c (sep ++ b)).
  change (prefix (String c sep) (String c (sep ++ b)))
    with (if ascii_dec c c then prefix sep (sep ++ b) else false).
  destruct (ascii_dec c c); [exact IH|contradiction].
Qed.

Lemma prefix_head (c0 c : ascii) (sub s : string) :
  Ascii.eqb c0 c = false -> prefix (String c0 sub) (String c s) = false.
Proof.
  intros Hne.
  change (prefix (String c0 sub) (String c s))
    with (if ascii_dec c0 c then prefix sub s else false).
  destruct (ascii_dec c0 c) as [->|]; [|reflexivity].
  now rewrite Ascii.eqb_refl in Hne.
Qed.

Lemma has_char_app (c : ascii) (a b : string) :
  has_char c (a ++ b) = has_char c a || has_char c b.
Proof.
  induction a as [|x a IH]; [reflexivity|].
  cbn. now rewrite IH, orb_assoc.
Qed.

Lemma contains_no_head (c0 : ascii) (sub a : string) :
  has_char c0 a = false -> PyStr.contains (String c0 sub) a = false.
Proof.
  induction a as [|c a IH]; [reflexivity|].
  cbn [has_char PyStr.contains]. intros H.
  apply orb_false_iff in H. destruct H as [Hc Ha].
  now rewrite (prefix_head _ _ _ _ Hc), (IH Ha).
Qed.

Lemma contains_app_no_head (c0 : ascii) (sub a b : string) :
  has_char c0 a = false ->
  PyStr.contains (String c0 sub) (a ++ b) = PyStr.contains (String c0 sub) b.
Proof.
  induction a as [|c a IH]; [reflexivity|].
  cbn [has_char]. intros H.
  apply orb_false_iff in H. destruct H as [Hc Ha].
  change (String c a ++ b) with (String c (a ++ b)).
  cbn [PyStr.contains].
  now rewrite (prefix_head _ _ _ _ Hc), (IH Ha).
Qed.

Lemma contains_self (c0 : ascii) (sub b : string) :
  PyStr.contains (String c0 sub) (String c0 sub ++ b) = true.
Proof.
  change (String c0 sub ++ b) with (String c0 (sub ++ b)).
  cbn [PyStr.contains].
  change (String c0 (sub ++ b)) with (String c0 sub ++ b).
  now rewrite prefix_self.
Qed.

Lemma contains_app_r (sub a b : string) :
  PyStr.contains sub b = true -> PyStr.contains sub (a ++ b) = true.
Proof.
  intros Hb. induction a as [|c a IH]; [exact Hb|].
  change (String c a ++ b) with (String c (a ++ b)).
  cbn [PyStr.contains]. rewrite IH. apply orb_true_r.
Qed.

(** The characters of a matched separator are dropped. *)
Lemma split_go_skip (sep : string) (m : option nat) (x s : string) :
  PyStr.split_go sep m (String.length x) (x ++ s) = PyStr.split_go sep m 0 s.
Proof.
  induction x as [|c x IH]; [reflexivity|].
  exact IH.
Qed.

(** A piece that cannot hold the start of the separator is cut off whole. *)
Lemma split_first (c0 : ascii) (sep a b : string) :
  has_char c0 a = false ->
  PyStr.split (String c0 sep) (a ++ String c0 sep ++ b)
    = a :: PyStr.split (String c0 sep) b.
Proof.
  unfold PyStr.split. induction a as [|c a IH]; intros Ha.
  - change (EmptyString ++ String c0 sep ++ b) with (String c0 (sep ++ b)).
    cbn [PyStr.split_go].
    change (String c0 (sep ++ b)) with (String c0 sep ++ b).
    rewrite prefix_self. cbn [option_map String.length Nat.pred].
    now rewrite split_go_skip.
  - cbn [has_char] in Ha.
    apply orb_false_iff in Ha. destruct Ha as [Hc Ha].
    change (String c a ++ String c0 sep ++ b)
      with (String c (a ++ String c0 sep ++ b)).
    cbn [PyStr.split_go].
    now rewrite (prefix_head _ _ _ _ Hc), (IH Ha).
Qed.

Lemma split_none (c0 : ascii) (sep a : string) :
  has_char c0 a = false -> PyStr.split (String c0 sep) a = [a].
Proof.
  unfold PyStr.split. induction a as [|c a IH]; intros Ha; [reflexivity|].
  cbn [has_char] in Ha.
  apply orb_false_iff in Ha. destruct Ha as [Hc Ha].
  cbn [PyStr.split_go].
  now rewrite (prefix_head _ _ _ _ Hc), (IH Ha).
Qed.

Lemma basename_plain (s : string) :
  has_char "/" s = false -> PyStr.basename s = s.
Proof.
  induction s as [|c s IH]; [reflexivity|].
  cbn [has_char]. intros H.
  apply orb_false_iff in H. destruct H as [Hc Hs].
  cbn [PyStr.basename].
  rewrite (contains_no_head _ _ _ Hs).
  rewrite Ascii.eqb_sym in Hc. now rewrite Hc.
Qed.

Lemma basename_dir (dir s : string) :
  has_char "/" s = false -> PyStr.basename (dir ++ "/" ++ s) = s.
Proof.
  intros Hs. induction dir as [|c dir IH].
  - change (EmptyString ++ "/" ++ s) with (String "/" s).
    cbn [PyStr.basename].
    now rewrite (contains_no_head _ _ _ Hs).
  - change (String c dir ++ "/" ++ s) with (String c (dir ++ "/" ++ s)).
    cbn [PyStr.basename].
    rewrite contains_app_r; [exact IH|].
    apply (contains_self "/" EmptyString s).
Qed.

(** The directory the caller clones into, [<name>-<tag>-<count>], gives the
    name back when the name has no hyphen. *)
Lemma repo_name_dest (dir name rest : string) :
  has_char "-" name = false ->
  has_char "/" (name ++ "-" ++ rest) = false ->
  repo_name (dir ++ "/" ++ name ++ "-" ++ rest) = name.
Proof.
  intros Hname Hslash. unfold repo_name.
  rewrite basename_dir by exact Hslash.
  now rewrite (split_first "-" EmptyString name rest Hname).
Qed.

(** Numerals hold digits only, and [int] reads them. *)
Lemma numeral_no_char (c : ascii) (s : string) :
  PyStr.digit_val c = None -> all_digits s = true -> has_char c s = false.
Proof.
  intros Hc. induction s as [|x s IH]; [reflexivity|].
  cbn [all_digits has_char].
  destruct (PyStr.digit_val x) eqn:Hx; [|discriminate].
  intros Hs. rewrite (IH Hs), orb_false_r.
  apply Ascii.eqb_neq. intros ->. congruence.
Qed.

Lemma rstrip_by_none (p : ascii -> bool) (s : string) :
  (forall c, p c = true -> has_char c s = false) ->
  PyStr.rstrip_by p s = s.
Proof.
  induction s as [|x s IH]; [reflexivity|].
  intros H. cbn [PyStr.rstrip_by].
  rewrite IH.
  - destruct s; [|reflexivity].
    destruct (p x) eqn:Hp; [|reflexivity].
    specialize (H x Hp). cbn in H. now rewrite Ascii.eqb_refl in H.
  - intros c Hc. specialize (H c Hc). cbn [has_char] in H.
    now apply orb_false_iff in H.
Qed.

Lemma digits_go_numeral (s : string) (acc : Z) :
  all_digits s = true -> exists n, PyStr.digits_go acc false s = Some n.
Proof.
  revert acc. induction s as [|x s IH]; intros acc; cbn [all_digits PyStr.digits_go].
  - eauto.
  - destruct (PyStr.digit_val x); [|discriminate]. intros Hs. now apply IH.
Qed.

Lemma c_space_not_digit (c : ascii) :
  PyStr.is_c_space c = true -> PyStr.digit_val c = None.
Proof.
  unfold PyStr.is_c_space, PyStr.digit_val. intros H.
  destruct ((48 <=? nat_of_ascii c)%nat && (nat_of_ascii c <=? 57)%nat) eqn:E;
    [|reflexivity].
  apply andb_true_iff in E. destruct E as [E1 E2].
  apply Nat.leb_le in E1. apply Nat.leb_le in E2.
  apply orb_true_iff in H. destruct H as [H|H].
  - apply andb_true_iff in H. destruct H as [_ H]. apply Nat.leb_le in H. lia.
  - apply Nat.eqb_eq in H. lia.
Qed.

Lemma int_numeral (s : string) :
  numeral s -> exists n, PyStr.int s = Some n.
Proof.
  intros [Hne Hs]. unfold PyStr.int.
  destruct s as [|x s]; [contradiction|].
  cbn [all_digits] in Hs.
  destruct (PyStr.digit_val x) as [d|] eqn:Hx; [|discriminate].
  assert (Hl : PyStr.lstrip_by PyStr.is_c_space (String x s) = String x s).
  { cbn [PyStr.lstrip_by].
    destruct (PyStr.is_c_space x) eqn:Hsp; [|reflexivity].
    apply c_space_not_digit in Hsp. congruence. }
  rewrite Hl, rstrip_by_none.
  - destruct (digits_go_numeral s d Hs) as [n Hn].
    exists n.
    assert (Hd : PyStr.digits (String x s) = Some n)
      by (cbn [PyStr.digits]; now rewrite Hx).
    destruct (Ascii.eqb_spec x "+") as [->|Hplus]; [discriminate Hx|].
    destruct (Ascii.eqb_spec x "-") as [->|Hminus]; [discriminate Hx|].
    destruct x as [[] [] [] [] [] [] [] []]; try exact Hd; congruence.
  - intros c Hc. apply numeral_no_char.
    + now apply c_space_not_digit.
    + cbn [all_digits]. now rewrite Hx.
Qed.

End Shapes.

(** ** The marker in the low 32 bits *)

Section Codec.

Lemma mask_is_ones : 0xffffffff = Z.ones 32.
Proof. reflexivity. Qed.

Lemma marker_fits : 0 <= BAD_MAGIC < 2 ^ 32.
Proof. unfold BAD_MAGIC. lia. Qed.

(** The shifted count and the marker share no bit, so [|] adds them. *)
Lemma encode_anomalous_sum (x : Z) :
  encode_anomalous x = x * 2 ^ 32 + BAD_MAGIC.
Proof.
  unfold encode_anomalous.
  rewrite Z.shiftl_mul_pow2 by lia.
  assert (Hdisj : Z.land (x * 2 ^ 32) BAD_MAGIC = 0).
  { apply Z.bits_inj'. intros n Hn. rewrite Z.land_spec, Z.bits_0.
    destruct (Z_lt_le_dec n 32) as [Hlo|Hhi].
    - rewrite Z.mul_pow2_bits_low by lia. reflexivity.
    - rewrite (Z.bits_above_log2 BAD_MAGIC n).
      + apply andb_false_r.
      + unfold BAD_MAGIC; lia.
      + assert (Z.log2 BAD_MAGIC < 32) by (apply Z.log2_lt_pow2; unfold BAD_MAGIC; lia).
        lia. }
  rewrite <- Z.lxor_lor by exact Hdisj.
  symmetry. apply Z.add_nocarry_lxor. exact Hdisj.
Qed.

Lemma encode_anomalous_low (x : Z) :
  Z.land (encode_anomalous x) 0xffffffff = BAD_MAGIC.
Proof.
  rewrite mask_is_ones, Z.land_ones by lia.
  rewrite encode_anomalous_sum.
  rewrite Z.add_comm, Z.mod_add by lia.
  apply Z.mod_small. apply marker_fits.
Qed.

Lemma encode_anomalous_high (x : Z) :
  Z.shiftr (encode_anomalous x) 32 = x.
Proof.
  rewrite Z.shiftr_div_pow2 by lia.
  rewrite encode_anomalous_sum.
  rewrite Z.add_comm, Z.div_add by lia.
  rewrite Z.div_small by apply marker_fits. reflexivity.
Qed.

(** Decoding undoes the anomalous encoding, for every integer. *)
Lemma filter_commit_encode (x : Z) :
  filter_commit (encode_anomalous x) = (x, true).
Proof.
  unfold filter_commit.
  rewrite encode_anomalous_low, Z.eqb_refl, encode_anomalous_high.
  reflexivity.
Qed.

Lemma filter_commit_plain (x : Z) :
  snd (filter_commit x) = false -> filter_commit x = (x, false).
Proof.
  unfold filter_commit.
  destruct (Z.land x 0xffffffff =? BAD_MAGIC); [discriminate|reflexivity].
Qed.

Lemma filter_commit_marked (x offset : Z) :
  filter_commit x = (offset, true) -> x <> 0.
Proof.
  intros H ->. cbv in H. discriminate.
Qed.

End Codec.

(** ** Running git *)

Section Running.

Variable w : World.

Lemma ran_nil (st : state) : ran st (cwd st) [] = st.
Proof. destruct st. unfold ran. cbn. now rewrite app_nil_r. Qed.

Lemma ran_ran (st : state) d1 d2 c1 c2 :
  ran (ran st d1 c1) d2 c2 = ran st d2 (c1 ++ c2).
Proof. unfold ran. cbn. now rewrite app_assoc. Qed.

Lemma git_log_run (ref : option string) (st : state) :
  git w "log" (log_args ref) st =
    (query_log w (cwd st) ref, ran st (cwd st) (started ref)).
Proof.
  unfold query_log, git, started, log_cmd.
  destruct (safe_command ("git" :: "log" :: log_args ref)); cbn [negb].
  - change (existsb (String.eqb "log") tasks) with true. cbn [negb].
    unfold check_output, ran. cbn [cwd calls app].
    destruct (run_process w (cwd st) ("git" :: "log" :: log_args ref))
      as [rc out|e].
    + destruct (rc =? 0); reflexivity.
    + destruct e; reflexivity.
  - unfold raise. cbn [fst]. now rewrite ran_nil.
Qed.

(** A query that answered, or that git refused, was started. *)
Lemma query_ok_started dir ref out :
  query_log w dir ref = Ok out -> started ref = [log_cmd ref].
Proof.
  unfold query_log, git, started, log_cmd.
  destruct (safe_command ("git" :: "log" :: log_args ref)); [reflexivity|].
  cbn. discriminate.
Qed.

Lemma query_refused_started dir ref e :
  query_log w dir ref = Raise (GitError e) -> started ref = [log_cmd ref].
Proof.
  unfold query_log, git, started, log_cmd.
  destruct (safe_command ("git" :: "log" :: log_args ref)); [reflexivity|].
  cbn. discriminate.
Qed.

(** One turn of each loop. *)
Lemma first_line_loop_cons salvo tags result st :
  first_line_loop w (salvo :: tags) result st =
    let st' := ran st (cwd st) (started (Some salvo)) in
    match query_log w (cwd st) (Some salvo) with
    | Ok out =>
        (of_option IndexError (PyStr.index (PyStr.splitlines out) 0), st')
    | Raise (GitError _) => first_line_loop w tags result st'
    | Raise e => (Raise e, st')
    end.
Proof.
  cbn [first_line_loop]. unfold bind.
  change ["--oneline"; salvo] with (log_args (Some salvo)).
  rewrite git_log_run. cbv zeta.
  destruct (query_log w (cwd st) (Some salvo)) as [out|e].
  - unfold lift.
    destruct (of_option IndexError (PyStr.index (PyStr.splitlines out) 0)) eqn:E;
      [reflexivity|].
    destruct (PyStr.index (PyStr.splitlines out) 0); cbn in E; [discriminate|].
    now inversion E.
  - destruct e; reflexivity.
Qed.

Lemma lines_loop_cons salvo tags result st :
  lines_loop w (salvo :: tags) result st =
    let st' := ran st (cwd st) (started (Some salvo)) in
    match query_log w (cwd st) (Some salvo) with
    | Ok out => (Ok (Lines (PyStr.splitlines out)), st')
    | Raise (GitError _) => lines_loop w tags result st'
    | Raise e => (Raise e, st')
    end.
Proof.
  cbn [lines_loop]. unfold bind.
  change ["--oneline"; salvo] with (log_args (Some salvo)).
  rewrite git_log_run. cbv zeta.
  destruct (query_log w (cwd st) (Some salvo)) as [out|e]; [reflexivity|].
  destruct e; reflexivity.
Qed.

(** Refused tags are passed over, each after one query. *)
Lemma first_line_loop_refused skipped tags result st :
  Forall (refused w (cwd st)) skipped ->
  first_line_loop w (skipped ++ tags) result st =
    first_line_loop w tags result (ran st (cwd st) (tag_cmds skipped)).
Proof.
  revert st. induction skipped as [|t skipped IH]; intros st Hs.
  - cbn. now rewrite ran_nil.
  - inversion Hs as [|? ? [e He] Hs']; subst.
    change ((t :: skipped) ++ tags)%list with (t :: (skipped ++ tags))%list.
    rewrite first_line_loop_cons. cbv zeta. rewrite He.
    rewrite (query_refused_started _ _ _ He).
    rewrite IH by exact Hs'. cbn [cwd ran]. now rewrite ran_ran.
Qed.

Lemma lines_loop_refused skipped tags result st :
  Forall (refused w (cwd st)) skipped ->
  lines_loop w (skipped ++ tags) result st =
    lines_loop w tags result (ran st (cwd st) (tag_cmds skipped)).
Proof.
  revert st. induction skipped as [|t skipped IH]; intros st Hs.
  - cbn. now rewrite ran_nil.
  - inversion Hs as [|? ? [e He] Hs']; subst.
    change ((t :: skipped) ++ tags)%list with (t :: (skipped ++ tags))%list.
    rewrite lines_loop_cons. cbv zeta. rewrite He.
    rewrite (query_refused_started _ _ _ He).
    rewrite IH by exact Hs'. cbn [cwd ran]. now rewrite ran_ran.
Qed.

End Running.

(** ** The resolver *)

Section Resolver.

Variable w : World.

(** Entering the function: the directory exists, the program moves into
    it and builds the candidate tags. *)
Lemma resolve_enter path tag post_commit st :
  path_exists w path = true ->
  git_commit_from_offset w path tag post_commit st =
    let st1 := ran st path [] in
    let tags := tag_candidates (repo_name path) tag in
    let back := fun (rev : string) => (chdir (cwd st) ;; ret rev)%prog in
    if post_commit =? 0 then
      (result <- first_line_loop w tags "" ;;
       '(rev, message) <- lift (unpack2 (PyStr.split_max " " 1 result)) ;;
       back rev)%prog st1
    else if snd (filter_commit post_commit) then
      (out <- git w "log" (log_args None) ;;
       line <- lift (of_option IndexError
                       (PyStr.index (PyStr.splitlines out)
                                    (fst (filter_commit post_commit)))) ;;
       '(rev, message) <- lift (unpack2 (PyStr.split_max " " 1 line)) ;;
       back rev)%prog st1
    else
      (result <- lines_loop w tags (Str "") ;;
       line <- lift (getitem result (len result - post_commit)) ;;
       '(rev, message) <-
          lift (unpack2 (PyStr.split_max " " 1 (PyStr.rstrip line))) ;;
       back rev)%prog st1.
Proof.
  intros Hp. unfold git_commit_from_offset.
  unfold bind at 1. unfold getcwd. rewrite Hp. cbn [negb].
  unfold bind at 1. unfold chdir at 1.
  unfold bind at 1. unfold lift at 1. rewrite repo_name_index. cbn [of_option].
  replace {| cwd := path; calls := calls st |} with (ran st path [])
    by (unfold ran; now rewrite app_nil_r).
  cbv zeta.
  destruct (post_commit =? 0); [reflexivity|].
  destruct (filter_commit post_commit) as [m b]. cbn [fst snd].
  destruct b; reflexivity.
Qed.

(** Leaving it with the hash of a log line. *)
Lemma resolve_leave line hash subject dir st :
  PyStr.split_max " " 1 line = [hash; subject] ->
  ('(rev, message) <- lift (unpack2 (PyStr.split_max " " 1 line)) ;;
   chdir dir ;; ret rev)%prog st = (Ok hash, ran st dir []).
Proof.
  intros ->. unfold bind, lift, chdir, ret, ran. cbn.
  now rewrite app_nil_r.
Qed.

End Resolver.

(** ** Resolving an exact tag *)

Section ExactTag.

Variable w : World.

(** C7: with post-commit count 0, the resolver goes through the candidate
    tags in order; at the first one that git accepts it returns the hash at
    the head of the first line of that log, and runs no query for the
    candidates after it. *)
Theorem exact_tag_first_line :
  forall (path tag : string) (skipped rest : list string)
         (c out hash subject : string) (lines : list string) (st : state),
    path_exists w path = true ->
    tag_candidates (repo_name path) tag = (skipped ++ c :: rest)%list ->
    Forall (refused w path) skipped ->
    query_log w path (Some c) = Ok out ->
    PyStr.splitlines out = log_line hash subject :: lines ->
    PyStr.contains " " hash = false ->
    git_commit_from_offset w path tag 0 st =
      (Ok hash, ran st (cwd st) (tag_cmds (skipped ++ [c]))).
Proof.
  intros path tag skipped rest c out hash subject lines st
         Hp Htags Hskip Hq Hlines Hhash.
  rewrite resolve_enter by exact Hp. cbv zeta.
  rewrite Htags. cbn [Z.eqb].
  unfold bind at 1.
  rewrite first_line_loop_refused by exact Hskip.
  rewrite first_line_loop_cons. cbv zeta. cbn [cwd ran].
  rewrite Hq, Hlines, index_head. cbn [of_option].
  rewrite (query_ok_started _ _ _ _ Hq).
  rewrite (resolve_leave _ hash subject) by (now apply split_log_line).
  unfold tag_cmds. rewrite map_app. cbn [map].
  now rewrite !ran_ran, app_nil_r.
Qed.

End ExactTag.

(** ** Resolving a tag and a count of commits *)

Section TagAndCount.

Variable w : World.

Lemma count_run path tag post_commit skipped rest c out st :
  path_exists w path = true ->
  tag_candidates (repo_name path) tag = (skipped ++ c :: rest)%list ->
  Forall (refused w path) skipped ->
  query_log w path (Some c) = Ok out ->
  snd (filter_commit post_commit) = false ->
  post_commit <> 0 ->
  git_commit_from_offset w path tag post_commit st =
    pick (Lines (PyStr.splitlines out)) post_commit (cwd st)
         (ran st path (tag_cmds (skipped ++ [c]))).
Proof.
  intros Hp Htags Hskip Hq Hplain Hnz.
  rewrite resolve_enter by exact Hp. cbv zeta.
  apply Z.eqb_neq in Hnz. rewrite Hnz, Hplain, Htags.
  unfold bind at 1.
  rewrite lines_loop_refused by exact Hskip.
  rewrite lines_loop_cons. cbv zeta. cbn [cwd ran].
  rewrite Hq, (query_ok_started _ _ _ _ Hq).
  unfold tag_cmds. rewrite map_app. cbn [map].
  now rewrite !ran_ran.
Qed.



End TagAndCount.

Section CountFromOldest.

Variable w : World.



End CountFromOldest.

(** ** The marked count: an index into the whole history *)

Section Anomaly.

Variable w : World.

(** C4: when the count carries the marker, the resolver asks for the log of
    the current branch with no tag, and returns the hash of the entry at
    the decoded index, counted from the newest commit; the tag and its
    candidates play no part, and no other query is run. *)
Theorem marked_count_absolute_index :
  forall (path tag : string) (post_commit offset : Z)
         (out hash subject : string) (st : state),
    path_exists w path = true ->
    filter_commit post_commit = (offset, true) ->
    query_log w path None = Ok out ->
    entry_at (PyStr.splitlines out) offset = Some (log_line hash subject) ->
    PyStr.contains " " hash = false ->
    git_commit_from_offset w path tag post_commit st
      = (Ok hash, ran st (cwd st) [log_cmd None]).
Proof.
  intros path tag post_commit offset out hash subject st
         Hp Hdec Hq Hentry Hhash.
  rewrite resolve_enter by exact Hp. cbv zeta.
  pose proof (filter_commit_marked _ _ Hdec) as Hnz.
  apply Z.eqb_neq in Hnz. rewrite Hnz, Hdec. cbn [fst snd].
  unfold bind at 1. rewrite git_log_run. cbn [cwd ran].
  rewrite Hq, (query_ok_started _ _ _ _ Hq).
  unfold bind at 1. unfold lift at 1.
  rewrite (entry_at_index _ _ _ Hentry). cbn [of_option].
  rewrite (resolve_leave _ hash subject) by (now apply split_log_line).
  now rewrite !ran_ran, app_nil_r.
Qed.

End Anomaly.

(** ** When git refuses a candidate, or cannot be asked *)

Section Failures.

Variable w : World.

Lemma exits_nonzero_refused dir tag :
  exits_nonzero w dir tag -> refused w dir tag.
Proof.
  intros [Hsafe (rc & out & Hrc & Hrun)].
  exists (CalledProcessError rc).
  unfold query_log, git. fold (log_cmd (Some tag)).
  rewrite Hsafe. cbn [negb].
  change (existsb (String.eqb "log") tasks) with true. cbn [negb].
  unfold check_output. cbn [cwd]. rewrite Hrun.
  apply Z.eqb_neq in Hrc. now rewrite Hrc.
Qed.

Lemma empty_string_index (i : Z) : getitem (Str EmptyString) i = Raise IndexError.
Proof.
  unfold getitem. cbn [list_ascii_of_string].
  rewrite index_out_of_range; [reflexivity|]. cbn [List.length]. lia.
Qed.

(** C2, as the code has it: when git refuses all four candidates and the
    count carries no marker, the resolver returns nothing and raises.  There
    is no error of its own for this: with a count of 0 it is the
    [ValueError] of unpacking the split of the empty string, with any other
    count the [IndexError] of indexing the empty string. *)
Theorem all_candidates_refused :
  forall (path tag : string) (post_commit : Z) (st : state),
    path_exists w path = true ->
    Forall (refused w path) (tag_candidates (repo_name path) tag) ->
    snd (filter_commit post_commit) = false ->
    git_commit_from_offset w path tag post_commit st
      = (Raise (if post_commit =? 0 then ValueError else IndexError),
         ran st path (tag_cmds (tag_candidates (repo_name path) tag))).
Proof.
  intros path tag post_commit st Hp Hall Hplain.
  rewrite resolve_enter by exact Hp. cbv zeta. rewrite Hplain.
  set (tags := tag_candidates (repo_name path) tag) in *.
  destruct (post_commit =? 0).
  - unfold bind at 1.
    rewrite <- (app_nil_r tags) at 1.
    rewrite first_line_loop_refused by exact Hall.
    cbn [first_line_loop ret cwd ran]. rewrite ran_ran.
    reflexivity.
  - unfold bind at 1.
    rewrite <- (app_nil_r tags) at 1.
    rewrite lines_loop_refused by exact Hall.
    cbn [lines_loop ret cwd ran]. rewrite ran_ran.
    unfold bind at 1. unfold lift at 1.
    now rewrite empty_string_index.
Qed.

(** C3, as the code has it: a candidate whose query ends with a non-zero
    exit status is passed over whatever the cause, and a query that fails
    in any other way ends the resolution with that very exception, the
    candidates after it never being asked. *)
Theorem only_git_error_moves_on :
  forall (path tag : string) (post_commit : Z) (skipped rest : list string)
         (c : string) (e : exn) (st : state),
    path_exists w path = true ->
    tag_candidates (repo_name path) tag = (skipped ++ c :: rest)%list ->
    Forall (exits_nonzero w path) skipped ->
    query_log w path (Some c) = Raise e ->
    (forall cause, e <> GitError cause) ->
    snd (filter_commit post_commit) = false ->
    git_commit_from_offset w path tag post_commit st
      = (Raise e, ran st path (tag_cmds skipped ++ started (Some c))).
Proof.
  intros path tag post_commit skipped rest c e st
         Hp Htags Hskip Hq Hother Hplain.
  assert (Hskip' : Forall (refused w path) skipped).
  { eapply Forall_impl; [|exact Hskip]. apply exits_nonzero_refused. }
  rewrite resolve_enter by exact Hp. cbv zeta. rewrite Hplain, Htags.
  destruct (post_commit =? 0).
  - unfold bind at 1.
    rewrite first_line_loop_refused by exact Hskip'.
    rewrite first_line_loop_cons. cbv zeta. cbn [cwd ran].
    rewrite Hq, !ran_ran. cbn [app].
    destruct e; try reflexivity. now contradiction (Hother e).
  - unfold bind at 1.
    rewrite lines_loop_refused by exact Hskip'.
    rewrite lines_loop_cons. cbv zeta. cbn [cwd ran].
    rewrite Hq, !ran_ran. cbn [app].
    destruct e; try reflexivity. now contradiction (Hother e).
Qed.

End Failures.

(** ** Decoding the version of a package file *)

Section Version.

(** C6: decoding the anomalous encoding of a non-negative 32-bit count
    gives the count back, with the flag set. *)
Theorem decode_encode_anomalous :
  forall x : Z,
    0 <= x < 2 ^ 32 ->
    filter_commit (encode_anomalous x) = (x, true).
Proof.
  intros x _. apply filter_commit_encode.
Qed.

(** The branch of [Package.version] for a base with [dev] and no [.dev]. *)
Lemma version_dev_branch
      (filename name base build tag digits major minor : string) (mj mn d : Z) :
  PyStr.split "-" (PyStr.basename filename) = [name; base; build] ->
  PyStr.contains ".dev" base = false ->
  PyStr.contains "dev" base = true ->
  PyStr.split "dev" base = [tag; digits] ->
  PyStr.split "." tag = [major; minor] ->
  PyStr.int major = Some mj ->
  PyStr.int minor = Some mn ->
  PyStr.int digits = Some d ->
  version filename
    = Ok ("v" ++ PyStr.str mj ++ "." ++ PyStr.str (mn - 1), encode_anomalous d).
Proof.
  intros Hname Hnodot Hdev Hbase Htag Hmj Hmn Hd.
  unfold version. rewrite Hname. cbn [unpack3 rbind].
  rewrite Hnodot, Hdev, Hbase. cbn [unpack2 rbind].
  rewrite Htag. cbn [unpack2 rbind].
  rewrite Hmj, Hmn, Hd. cbn [of_option rbind].
  reflexivity.
Qed.

(** C5: a base that contains [dev] but not [.dev], with a tag part
    [major.minor], decodes to the tag [v<major>.<minor - 1>] and to a count
    that [filter_commit] decodes to the digits after [dev], flag set. *)
Theorem dev_version_decoded :
  forall (filename name base build tag digits major minor : string)
         (mj mn d : Z),
    PyStr.split "-" (PyStr.basename filename) = [name; base; build] ->
    PyStr.contains ".dev" base = false ->
    PyStr.contains "dev" base = true ->
    PyStr.split "dev" base = [tag; digits] ->
    PyStr.split "." tag = [major; minor] ->
    PyStr.int major = Some mj ->
    PyStr.int minor = Some mn ->
    PyStr.int digits = Some d ->
    exists encoded,
      version filename
        = Ok ("v" ++ PyStr.str mj ++ "." ++ PyStr.str (mn - 1), encoded)
      /\ filter_commit encoded = (d, true).
Proof.
  intros filename name base build tag digits major minor mj mn d
         Hname Hnodot Hdev Hbase Htag Hmj Hmn Hd.
  exists (encode_anomalous d). split.
  - now apply (version_dev_branch filename name base build tag digits
                                  major minor).
  - apply filter_commit_encode.
Qed.

Lemma append_assoc (a b c : string) : (a ++ b) ++ c = a ++ b ++ c.
Proof.
  induction a as [|x a IH]; [reflexivity|]. cbn. now rewrite IH.
Qed.

(** Every file [<name>-<major>.<minor>dev<digits>-<build>] with plain
    numerals is of that kind, in whatever directory it lies. *)
Lemma dev_version_of_numerals
      (dir name major minor digits build : string) :
  has_char "-" name = false ->
  has_char "/" name = false ->
  has_char "-" build = false ->
  has_char "/" build = false ->
  numeral major -> numeral minor -> numeral digits ->
  exists mj mn d,
    PyStr.int major = Some mj /\ PyStr.int minor = Some mn
    /\ PyStr.int digits = Some d
    /\ version (dir ++ "/" ++ name ++ "-"
                    ++ (major ++ "." ++ minor ++ "dev" ++ digits)
                    ++ "-" ++ build)
       = Ok ("v" ++ PyStr.str mj ++ "." ++ PyStr.str (mn - 1),
             encode_anomalous d).
Proof.
  intros Hname Hname' Hbuild Hbuild' Hmajor Hminor Hdigits.
  destruct (int_numeral _ Hmajor) as [mj Hmj].
  destruct (int_numeral _ Hminor) as [mn Hmn].
  destruct (int_numeral _ Hdigits) as [d Hd].
  exists mj, mn, d. repeat split; try assumption.
  destruct Hmajor as [_ Hmajor]. destruct Hminor as [Hminor0 Hminor].
  destruct Hdigits as [_ Hdigits].
  assert (Hno : forall c, PyStr.digit_val c = None ->
                          has_char c major = false
                          /\ has_char c minor = false
                          /\ has_char c digits = false).
  { intros c Hc. repeat split; now apply numeral_no_char. }
  set (base := major ++ "." ++ minor ++ "dev" ++ digits).
  assert (Hbase_hyphen : has_char "-" base = false).
  { unfold base. rewrite !has_char_app.
    destruct (Hno "-"%char eq_refl) as (-> & -> & ->). reflexivity. }
  assert (Hbase_slash : has_char "/" base = false).
  { unfold base. rewrite !has_char_app.
    destruct (Hno "/"%char eq_refl) as (-> & -> & ->). reflexivity. }
  apply (version_dev_branch _ name base build (major ++ "." ++ minor) digits
                            major minor); try assumption.
  - rewrite basename_dir.
    + rewrite (split_first "-" EmptyString name _ Hname).
      rewrite (split_first "-" EmptyString base _ Hbase_hyphen).
      now rewrite (split_none "-" EmptyString build Hbuild).
    + rewrite !has_char_app, Hname', Hbase_slash, Hbuild'. reflexivity.
  - unfold base.
    destruct (Hno "."%char eq_refl) as (Hmj' & Hmn' & Hd').
    rewrite (contains_app_no_head "." "dev" major _ Hmj').
    change ("." ++ minor ++ "dev" ++ digits)
      with (String "." (minor ++ "dev" ++ digits)).
    cbn [PyStr.contains].
    rewrite (contains_no_head "." "dev" (minor ++ "dev" ++ digits))
      by (rewrite !has_char_app, Hmn', Hd'; reflexivity).
    rewrite orb_false_r.
    destruct minor as [|x minor]; [contradiction|].
    cbn [all_digits] in Hminor.
    destruct (PyStr.digit_val x) eqn:Hx; [|discriminate].
    change (prefix ".dev" (String "." (String x minor ++ "dev" ++ digits)))
      with (prefix "dev" (String x (minor ++ "dev" ++ digits))).
    apply prefix_head. apply Ascii.eqb_neq. intros <-. discriminate Hx.
  - unfold base.
    apply contains_app_r. apply (contains_app_r "dev" ".").
    apply contains_app_r. apply (contains_self "d" "ev" digits).
  - unfold base.
    destruct (Hno "d"%char eq_refl) as (Hmj' & Hmn' & Hd').
    replace (major ++ "." ++ minor ++ "dev" ++ digits)
      with ((major ++ "." ++ minor) ++ "dev" ++ digits)
      by (now rewrite !append_assoc).
    rewrite (split_first "d" "ev" (major ++ "." ++ minor) digits)
      by (rewrite !has_char_app, Hmj', Hmn'; reflexivity).
    now rewrite (split_none "d" "ev" digits Hd').
  - destruct (Hno "."%char eq_refl) as (Hmj' & Hmn' & _).
    rewrite (split_first "." EmptyString major minor Hmj').
    now rewrite (split_none "." EmptyString minor Hmn').
Qed.


End Version.

Section MalformedVersion.

Lemma version_raises_value_error (filename : string) (e : exn) :
  version filename = Raise e -> e = ValueError.
Proof.
  unfold version, rbind, unpack3, unpack2, of_option.
  repeat match goal with
         | |- context [match ?x with _ => _ end] =>
             lazymatch x with
             | context [match _ with _ => _ end] => fail
             | _ => destruct x
             end
         end; congruence.
Qed.

(** Choosing the tokens of the name and the marker of its base. *)
Ltac at_base name base build m Hdot Hdev :=
  right; exists name, base, build, m;
  split; [reflexivity|];
  split; [rewrite ?Hdot, ?Hdev; reflexivity|].

(** Reading them back from the right-hand side. *)
Ltac of_base H Hdot Hdev Hbase :=
  let Hlen := fresh "Hlen" in
  let Heq := fresh "Heq" in
  let Hm := fresh "Hm" in
  let Hbad := fresh "Hbad" in
  let Heq' := fresh "Heq" in
  destruct H as [Hlen | (? & ? & ? & ? & Heq & Hm & Hbad)]; [lia|];
  injection Heq as <- <- <-;
  rewrite ?Hdot, ?Hdev in Hm; injection Hm as <-;
  rewrite Hbase in Hbad;
  destruct Hbad as [Hlen | (? & ? & Heq' & H)]; [cbn in Hlen; lia|];
  injection Heq' as <- <-.

(** C8, as the code has it: decoding raises ([ValueError], and nothing
    else) exactly when the name does not split into three hyphen-delimited
    tokens, or the base does not split at its marker into two pieces, or
    the piece after the marker is not an integer literal, or, the marker
    being [dev], the piece before it is not two integer literals around
    one dot. *)
Theorem version_fails_exactly_when :
  forall filename : string,
    version filename = Raise ValueError <->
    (List.length (PyStr.split "-" (PyStr.basename filename)) <> 3%nat
     \/ exists name base build m,
         PyStr.split "-" (PyStr.basename filename) = [name; base; build]
         /\ marker base = Some m
         /\ (List.length (PyStr.split m base) <> 2%nat
             \/ exists tag digits,
                 PyStr.split m base = [tag; digits]
                 /\ (PyStr.int digits = None
                     \/ (m = "dev"
                         /\ forall major minor,
                             PyStr.split "." tag = [major; minor] ->
                             PyStr.int major = None
                             \/ PyStr.int minor = None)))).
Proof.
  intros filename. unfold version.
  destruct (PyStr.split "-" (PyStr.basename filename))
    as [|name [|base [|build [|x l]]]] eqn:Hsplit;
    cbn [unpack3 rbind List.length];
    try (split; [intros _; left; lia | reflexivity]).
  unfold marker.
  destruct (PyStr.contains ".dev" base) eqn:Hdot.
  - (* the base holds [.dev] *)
    destruct (PyStr.split ".dev" base) as [|tag [|digits [|y l]]] eqn:Hbase;
      cbn [unpack2 rbind List.length];
      try (split; [intros _; at_base name base build ".dev" Hdot Hdot;
                   left; rewrite Hbase; cbn; lia
                  | reflexivity]).
    destruct (PyStr.int digits) as [k|] eqn:Hint; cbn [of_option rbind].
    + split; [discriminate|].
      intros H. of_base H Hdot Hdot Hbase. destruct H as [H | [H _]]; congruence.
    + split; [|reflexivity].
      intros _. at_base name base build ".dev" Hdot Hdot.
      right. exists tag, digits. split; [exact Hbase|]. now left.
  - destruct (PyStr.contains "dev" base) eqn:Hdev.
    + (* the base holds [dev] only *)
      destruct (PyStr.split "dev" base) as [|tag [|digits [|y l]]] eqn:Hbase;
        cbn [unpack2 rbind List.length];
        try (split; [intros _; at_base name base build "dev" Hdot Hdev;
                     left; rewrite Hbase; cbn; lia
                    | reflexivity]).
      destruct (PyStr.split "." tag) as [|major [|minor [|z l]]] eqn:Htag;
        cbn [unpack2 rbind];
        try (split; [intros _; at_base name base build "dev" Hdot Hdev;
                     right; exists tag, digits; split; [exact Hbase|];
                     right; split; [reflexivity|];
                     intros ? ?; rewrite Htag; discriminate
                    | reflexivity]).
      destruct (PyStr.int major) as [mj|] eqn:Hmj; cbn [of_option rbind].
      * destruct (PyStr.int minor) as [mn|] eqn:Hmn; cbn [of_option rbind].
        -- destruct (PyStr.int digits) as [d|] eqn:Hd; cbn [of_option rbind].
           ++ split; [discriminate|].
              intros H. of_base H Hdot Hdev Hbase.
              destruct H as [H | [_ H]]; [congruence|].
              destruct (H major minor Htag); congruence.
           ++ split; [|reflexivity].
              intros _. at_base name base build "dev" Hdot Hdev.
              right. exists tag, digits. split; [exact Hbase|]. now left.
        -- split; [|reflexivity].
           intros _. at_base name base build "dev" Hdot Hdev.
           right. exists tag, digits. split; [exact Hbase|].
           right. split; [reflexivity|].
           intros ? ? Heq. rewrite Htag in Heq. injection Heq as <- <-. now right.
      * split; [|reflexivity].
        intros _. at_base name base build "dev" Hdot Hdev.
        right. exists tag, digits. split; [exact Hbase|].
        right. split; [reflexivity|].
        intros ? ? Heq. rewrite Htag in Heq. injection Heq as <- <-. now left.
    + (* an exact release *)
      split; [discriminate|].
      intros [Hlen | (n' & b' & u' & m & Heq & Hm & _)]; [lia|].
      injection Heq as <- <- <-. rewrite Hdot, Hdev in Hm. discriminate.
Qed.

End MalformedVersion.

(** ** The fixtures, resolved *)

Section Fixtures.

(** The exact tag [1.0.0] of package [foo]: candidate [1.0.0] is refused,
    candidate [v1.0.0] gives the commit of the tag. *)
Lemma exact_tag_first_line_fixture :
  git_commit_from_offset fixture repo "1.0.0" 0 st0
    = (Ok "c2", ran st0 (cwd st0) (tag_cmds (["1.0.0"] ++ ["v1.0.0"]))).
Proof.
  apply (exact_tag_first_line fixture repo "1.0.0"
           ["1.0.0"] ["foo-1.0.0"; "foo-v1.0.0"] "v1.0.0" tag_history
           "c2" "Release 1.0.0" ["c1 Initial commit"] st0).
  - reflexivity.
  - reflexivity.
  - constructor; [|constructor].
    exists (CalledProcessError 128). vm_compute. reflexivity.
  - vm_compute. reflexivity.
  - vm_compute. reflexivity.
  - reflexivity.
Defined.



(** A history of five commits and the marked count 2: the third newest
    commit, whatever the tag. *)
Lemma marked_count_fixture :
  git_commit_from_offset fixture repo "9.9" (encode_anomalous 2) st0
    = (Ok "c3", ran st0 (cwd st0) [log_cmd None]).
Proof.
  apply (marked_count_absolute_index fixture repo "9.9" (encode_anomalous 2) 2
           head_history "c3" "Start 1.1" st0).
  - reflexivity.
  - reflexivity.
  - vm_compute. reflexivity.
  - vm_compute. reflexivity.
  - reflexivity.
Defined.

(** No tag of the fixture matches a candidate for [2.0]. *)
Lemma all_candidates_refused_fixture :
  git_commit_from_offset fixture repo "2.0" 0 st0
    = (Raise ValueError,
       ran st0 repo (tag_cmds (tag_candidates (repo_name repo) "2.0"))).
Proof.
  apply (all_candidates_refused fixture repo "2.0" 0 st0).
  - reflexivity.
  - repeat constructor;
      (exists (CalledProcessError 128); vm_compute; reflexivity).
  - reflexivity.
Defined.

(** Git cannot be started for [v1.0.0]: the [PermissionError] ends the
    resolution, after the refusal of [1.0.0] was passed over. *)
Lemma only_git_error_moves_on_unstartable :
  git_commit_from_offset unstartable repo "1.0.0" 0 st0
    = (Raise PermissionError,
       ran st0 repo (tag_cmds ["1.0.0"] ++ started (Some "v1.0.0"))).
Proof.
  apply (only_git_error_moves_on unstartable repo "1.0.0" 0
           ["1.0.0"] ["foo-1.0.0"; "foo-v1.0.0"] "v1.0.0" PermissionError st0).
  - reflexivity.
  - reflexivity.
  - constructor; [|constructor]. split; [reflexivity|].
    exists 128, unknown_revision. split; [lia|]. vm_compute. reflexivity.
  - vm_compute. reflexivity.
  - intros cause. discriminate.
  - reflexivity.
Defined.

(** The example of the claim: [astropy-4.1dev500-0]. *)
Lemma dev_version_decoded_astropy :
  exists encoded,
    version "astropy-4.1dev500-0" = Ok ("v" ++ PyStr.str 4 ++ "." ++ PyStr.str (1 - 1), encoded)
    /\ filter_commit encoded = (500, true).
Proof.
  apply (dev_version_decoded "astropy-4.1dev500-0" "astropy" "4.1dev500" "0"
           "4.1" "500" "4" "1" 4 1 500); vm_compute; reflexivity.
Defined.

Lemma decode_encode_anomalous_500 :
  filter_commit (encode_anomalous 500) = (500, true).
Proof.
  apply (decode_encode_anomalous 500). lia.
Defined.

(** The example of the claim: a name of two tokens. *)
Lemma version_fails_two_tokens :
  version "onlytwoparts-x" = Raise ValueError.
Proof.
  apply (version_fails_exactly_when "onlytwoparts-x").
  left. vm_compute. discriminate.
Defined.

(** Against C2 as stated: when git refuses every candidate, the error is
    not one kind of its own.  A count of 0 and a count of 1 raise different
    exceptions, and the one for 0 is the exception that decoding a malformed
    version raises. *)
Lemma all_refused_no_error_of_its_own :
  Forall (refused fixture repo) (tag_candidates (repo_name repo) "2.0")
  /\ fst (git_commit_from_offset fixture repo "2.0" 0 st0) = Raise ValueError
  /\ fst (git_commit_from_offset fixture repo "2.0" 1 st0) = Raise IndexError
  /\ version "onlytwoparts-x" = Raise ValueError
  /\ ~ (exists ResolutionError : exn,
          fst (git_commit_from_offset fixture repo "2.0" 0 st0)
            = Raise ResolutionError
          /\ fst (git_commit_from_offset fixture repo "2.0" 1 st0)
               = Raise ResolutionError).
Proof.
  split; [|split; [|split; [|split]]].
  - repeat constructor;
      (exists (CalledProcessError 128); vm_compute; reflexivity).
  - vm_compute. reflexivity.
  - vm_compute. reflexivity.
  - vm_compute. reflexivity.
  - intros (e & H0 & H1).
    vm_compute in H0. vm_compute in H1. congruence.
Qed.

(** Against C3 as stated: the query of candidate [1.0.0] fails on a damaged
    object store, which is not a missing ref; the failure is not passed on,
    the next candidate is asked, and its commit is returned. *)
Lemma damaged_history_moves_on :
  run_process damaged repo (log_cmd (Some "1.0.0"))
    = Completed 128 damaged_object
  /\ query_log fixture repo (Some "1.0.0")
     = Raise (GitError (CalledProcessError 128))
  /\ query_log damaged repo (Some "1.0.0")
     = Raise (GitError (CalledProcessError 128))
  /\ git_commit_from_offset damaged repo "1.0.0" 0 st0
     = (Ok "c2", ran st0 (cwd st0) (tag_cmds ["1.0.0"; "v1.0.0"]))
  /\ ~ (exists e st,
          git_commit_from_offset damaged repo "1.0.0" 0 st0 = (Raise e, st)).
Proof.
  split; [|split; [|split; [|split]]]; try (vm_compute; reflexivity).
  intros (e & st & H). vm_compute in H. discriminate.
Qed.

(** Against C8 as stated: this name has three hyphen-delimited tokens and
    the digits after [dev] are an integer, and decoding fails all the same,
    on the tag part [4.1.2]. *)
Lemma version_fails_on_tag_part :
  PyStr.split "-" (PyStr.basename "astropy-4.1.2dev500-0")
    = ["astropy"; "4.1.2dev500"; "0"]
  /\ PyStr.split "dev" "4.1.2dev500" = ["4.1.2"; "500"]
  /\ PyStr.int "500" = Some 500
  /\ version "astropy-4.1.2dev500-0" = Raise ValueError.
Proof.
  repeat split; vm_compute; reflexivity.
Qed.

End Fixtures.

(** * More of the program *)

(** ** Tokens, pieces and counts *)

Section Pieces.

Lemma prefix_char (c x : ascii) (s : string) :
  prefix (String c EmptyString) (String x s) = Ascii.eqb c x.
Proof.
  change (prefix (String c EmptyString) (String x s))
    with (if ascii_dec c x then prefix EmptyString s else false).
  destruct (ascii_dec c x) as [<-|Hne].
  - rewrite Ascii.eqb_refl. now destruct s.
  - symmetry. now apply Ascii.eqb_neq.
Qed.

Lemma contains_char (c : ascii) (s : string) :
  PyStr.contains (String c EmptyString) s = has_char c s.
Proof.
  induction s as [|x s IH]; [reflexivity|].
  cbn [PyStr.contains has_char]. now rewrite prefix_char, IH.
Qed.

(** A split at one character gives one piece more than the character
    occurs. *)
Lemma length_split_char (c : ascii) (s : string) :
  List.length (PyStr.split (String c EmptyString) s) = S (count_char c s).
Proof.
  unfold PyStr.split. induction s as [|x s IH]; [reflexivity|].
  cbn [PyStr.split_go count_char option_map String.length Nat.pred].
  rewrite prefix_char.
  destruct (Ascii.eqb c x); cbn [List.length].
  - now rewrite IH.
  - pose proof (split_go_not_nil (String c EmptyString) None 0 s) as Hne.
    destruct (PyStr.split_go (String c EmptyString) None 0 s) as [|p ps];
      [contradiction|exact IH].
Qed.

(** The pieces of a split hold no character that the string does not. *)
Lemma split_go_pieces (c : ascii) (sep : string) (s : string) :
  forall (m : option nat) (k : nat),
    has_char c s = false ->
    Forall (fun p => has_char c p = false) (PyStr.split_go sep m k s).
Proof.
  induction s as [|x s IH]; intros m k Hs.
  - cbn. repeat constructor.
  - cbn [has_char] in Hs. apply orb_false_iff in Hs. destruct Hs as [Hx Hs].
    cbn [PyStr.split_go]. destruct k as [|k]; [|now apply IH].
    assert (Hwhole : Forall (fun p => has_char c p = false) [String x s]).
    { repeat constructor. cbn [has_char]. now rewrite Hx, Hs. }
    assert (Hcut : forall m',
               Forall (fun p => has_char c p = false)
                 (if prefix sep (String x s)
                  then EmptyString ::
                       PyStr.split_go sep (option_map Nat.pred m')
                                      (Nat.pred (String.length sep)) s
                  else match PyStr.split_go sep m' 0 s with
                       | p :: ps => String x p :: ps
                       | [] => [String x EmptyString]
                       end)).
    { intros m'. destruct (prefix sep (String x s)).
      - constructor; [reflexivity|now apply IH].
      - pose proof (IH m' O Hs) as Hrec.
        destruct (PyStr.split_go sep m' 0 s) as [|p ps].
        + repeat constructor. cbn [has_char]. now rewrite Hx.
        + inversion Hrec as [|? ? Hp Hps]; subst.
          constructor; [|exact Hps]. cbn [has_char]. now rewrite Hx, Hp. }
    destruct m as [[|m]|]; [exact Hwhole|apply Hcut|apply Hcut].
Qed.

(** The pieces of a split at one character do not hold that character. *)
Lemma split_char_pieces (c : ascii) (s : string) :
  Forall (fun p => has_char c p = false) (PyStr.split (String c EmptyString) s).
Proof.
  unfold PyStr.split. induction s as [|x s IH].
  - cbn. repeat constructor.
  - cbn [PyStr.split_go option_map String.length Nat.pred].
    rewrite prefix_char. destruct (Ascii.eqb c x) eqn:Hx.
    + constructor; [reflexivity|exact IH].
    + destruct (PyStr.split_go (String c EmptyString) None 0 s) as [|p ps].
      * repeat constructor. cbn [has_char]. now rewrite Hx.
      * inversion IH as [|? ? Hp Hps]; subst.
        constructor; [|exact Hps]. cbn [has_char]. now rewrite Hx, Hp.
Qed.

Lemma lstrip_by_no_char (c : ascii) (p : ascii -> bool) (s : string) :
  has_char c s = false -> has_char c (PyStr.lstrip_by p s) = false.
Proof.
  induction s as [|x s IH]; [reflexivity|].
  intros Hs. cbn [PyStr.lstrip_by].
  destruct (p x); [|exact Hs].
  apply IH. cbn [has_char] in Hs. now apply orb_false_iff in Hs.
Qed.

Lemma rstrip_by_no_char (c : ascii) (p : ascii -> bool) (s : string) :
  has_char c s = false -> has_char c (PyStr.rstrip_by p s) = false.
Proof.
  induction s as [|x s IH]; [reflexivity|].
  intros Hs. cbn [has_char] in Hs.
  apply orb_false_iff in Hs. destruct Hs as [Hx Hs].
  cbn [PyStr.rstrip_by]. specialize (IH Hs).
  destruct (PyStr.rstrip_by p s) as [|y r].
  - destruct (p x); [reflexivity|]. cbn [has_char]. now rewrite Hx.
  - cbn [has_char] in *. now rewrite Hx, IH.
Qed.

Lemma digit_val_range (c : ascii) (d : Z) :
  PyStr.digit_val c = Some d -> 0 <= d <= 9.
Proof.
  unfold PyStr.digit_val.
  destruct ((48 <=? nat_of_ascii c)%nat && (nat_of_ascii c <=? 57)%nat) eqn:E;
    [|discriminate].
  apply andb_true_iff in E. destruct E as [E1 E2].
  apply Nat.leb_le in E1. apply Nat.leb_le in E2.
  intros H. injection H as <-. lia.
Qed.

Lemma digits_go_nonneg (s : string) :
  forall (acc : Z) (u : bool) (n : Z),
    0 <= acc -> PyStr.digits_go acc u s = Some n -> 0 <= n.
Proof.
  induction s as [|x s IH]; intros acc u n Hacc; cbn [PyStr.digits_go].
  - destruct u; [discriminate|]. intros H. injection H as <-. exact Hacc.
  - destruct (PyStr.digit_val x) as [d|] eqn:Hx.
    + apply IH. apply digit_val_range in Hx. lia.
    + destruct (Ascii.eqb x "_" && negb u); [|discriminate].
      now apply IH.
Qed.

Lemma digits_nonneg (s : string) (n : Z) :
  PyStr.digits s = Some n -> 0 <= n.
Proof.
  destruct s as [|x s]; [discriminate|]. cbn [PyStr.digits].
  destruct (PyStr.digit_val x) as [d|] eqn:Hx; [|discriminate].
  apply digits_go_nonneg. apply digit_val_range in Hx. lia.
Qed.

(** Without a minus sign, [int] reads a number that is not negative. *)
Lemma int_nonneg (s : string) (n : Z) :
  has_char "-" s = false -> PyStr.int s = Some n -> 0 <= n.
Proof.
  intros Hs. unfold PyStr.int.
  pose proof (rstrip_by_no_char "-" PyStr.is_c_space _
                (lstrip_by_no_char "-" PyStr.is_c_space s Hs)) as Ht.
  destruct (PyStr.rstrip_by PyStr.is_c_space (PyStr.lstrip_by PyStr.is_c_space s))
    as [|x t]; [discriminate|].
  cbn [has_char] in Ht. apply orb_false_iff in Ht. destruct Ht as [Hx _].
  destruct (Ascii.eqb_spec x "-") as [->|Hminus]; [discriminate Hx|].
  destruct (Ascii.eqb_spec x "+") as [->|Hplus]; [apply digits_nonneg|].
  intros H.
  assert (Hd : PyStr.digits (String x t) = Some n).
  { destruct x as [[] [] [] [] [] [] [] []]; try exact H; congruence. }
  now apply digits_nonneg in Hd.
Qed.

End Pieces.

(** ** What [Package.version] asks of a file name, and what it gives *)

Section VersionShape.

(** X1: a file name whose last component does not hold exactly two hyphens
    is refused, so a package whose own name holds a hyphen cannot be
    decoded. *)
Theorem version_needs_two_hyphens :
  forall filename : string,
    count_char "-" (PyStr.basename filename) <> 2%nat ->
    version filename = Raise ValueError.
Proof.
  intros filename Hcount. unfold version.
  pose proof (length_split_char "-" (PyStr.basename filename)) as Hlen.
  destruct (PyStr.split "-" (PyStr.basename filename))
    as [|a [|b [|c [|d l]]]]; try reflexivity.
  cbn [List.length] in Hlen. lia.
Qed.

(** X2: the count that [Package.version] returns is never negative. *)
Theorem version_count_nonneg :
  forall (filename tag : string) (n : Z),
    version filename = Ok (tag, n) -> 0 <= n.
Proof.
  intros filename tag n. unfold version.
  pose proof (split_char_pieces "-" (PyStr.basename filename)) as Hpieces.
  destruct (PyStr.split "-" (PyStr.basename filename))
    as [|a [|base [|c [|d l]]]]; cbn [unpack3 rbind]; try discriminate.
  assert (Hbase : has_char "-" base = false).
  { inversion Hpieces as [|? ? _ H1]; subst.
    now inversion H1 as [|? ? H2 _]; subst. }
  clear Hpieces.
  destruct (PyStr.contains ".dev" base).
  - pose proof (split_go_pieces "-" ".dev" base None 0 Hbase) as Hp.
    fold (PyStr.split ".dev" base) in Hp.
    destruct (PyStr.split ".dev" base) as [|t [|digits [|y l]]];
      cbn [unpack2 rbind]; try discriminate.
    assert (Hd : has_char "-" digits = false).
    { inversion Hp as [|? ? _ H1]; subst.
      now inversion H1 as [|? ? H2 _]; subst. }
    destruct (PyStr.int digits) as [k|] eqn:Hk; cbn [of_option rbind];
      [|discriminate].
    intros H. injection H as _ <-. exact (int_nonneg _ _ Hd Hk).
  - destruct (PyStr.contains "dev" base).
    + pose proof (split_go_pieces "-" "dev" base None 0 Hbase) as Hp.
      fold (PyStr.split "dev" base) in Hp.
      destruct (PyStr.split "dev" base) as [|t [|digits [|y l]]];
        cbn [unpack2 rbind]; try discriminate.
      assert (Hd : has_char "-" digits = false).
      { inversion Hp as [|? ? _ H1]; subst.
        now inversion H1 as [|? ? H2 _]; subst. }
      destruct (PyStr.split "." t) as [|mj [|mn [|z l]]];
        cbn [unpack2 rbind]; try discriminate.
      destruct (PyStr.int mj); cbn [of_option rbind]; [|discriminate].
      destruct (PyStr.int mn); cbn [of_option rbind]; [|discriminate].
      destruct (PyStr.int digits) as [k|] eqn:Hk; cbn [of_option rbind];
        [|discriminate].
      intros H. injection H as _ <-.
      pose proof (int_nonneg _ _ Hd Hk) as Hk0.
      rewrite encode_anomalous_sum. unfold BAD_MAGIC. lia.
    + intros H. injection H as _ <-. lia.
Qed.

End VersionShape.

Section VersionNames.

Lemma prefix_contains (sub s : string) :
  prefix sub s = true -> PyStr.contains sub s = true.
Proof.
  destruct s; cbn [PyStr.contains]; intros H; [exact H|].
  now rewrite H.
Qed.

Lemma contains_tail (c : ascii) (sub s : string) :
  PyStr.contains (String c sub) s = true -> PyStr.contains sub s = true.
Proof.
  induction s as [|x s IH]; [discriminate|].
  cbn [PyStr.contains]. intros H. apply orb_true_iff in H.
  apply orb_true_iff. right. destruct H as [H|H]; [|now apply IH].
  change (prefix (String c sub) (String x s))
    with (if ascii_dec c x then prefix sub s else false) in H.
  destruct (ascii_dec c x); [|discriminate].
  now apply prefix_contains.
Qed.

(** A piece is cut off whole also when it holds the first character of the
    separator, as long as it does not hold the second. *)
Lemma split_first_second (c0 c1 : ascii) (sep a b : string) :
  Ascii.eqb c1 c0 = false ->
  has_char c1 a = false ->
  PyStr.split (String c0 (String c1 sep)) (a ++ String c0 (String c1 sep) ++ b)
    = a :: PyStr.split (String c0 (String c1 sep)) b.
Proof.
  intros Hc. unfold PyStr.split. induction a as [|x a IH]; intros Ha.
  - change (EmptyString ++ String c0 (String c1 sep) ++ b)
      with (String c0 (String c1 sep ++ b)).
    cbn [PyStr.split_go].
    change (String c0 (String c1 sep ++ b)) with (String c0 (String c1 sep) ++ b).
    rewrite prefix_self. cbn [option_map String.length Nat.pred].
    exact (f_equal (cons EmptyString)
             (split_go_skip (String c0 (String c1 sep)) None (String c1 sep) b)).
  - cbn [has_char] in Ha. apply orb_false_iff in Ha. destruct Ha as [Hx Ha].
    change (String x a ++ String c0 (String c1 sep) ++ b)
      with (String x (a ++ String c0 (String c1 sep) ++ b)).
    cbn [PyStr.split_go].
    assert (Hpre : prefix (String c0 (String c1 sep))
                          (String x (a ++ String c0 (String c1 sep) ++ b))
                   = false).
    { change (prefix (String c0 (String c1 sep))
                     (String x (a ++ String c0 (String c1 sep) ++ b)))
        with (if ascii_dec c0 x
              then prefix (String c1 sep) (a ++ String c0 (String c1 sep) ++ b)
              else false).
      destruct (ascii_dec c0 x); [|reflexivity].
      destruct a as [|y a].
      - now apply prefix_head.
      - cbn [has_char] in Ha. apply orb_false_iff in Ha.
        now apply prefix_head. }
    now rewrite Hpre, (IH Ha).
Qed.

Lemma split_names (dir name base build : string) :
  has_char "-" name = false -> has_char "/" name = false ->
  has_char "-" base = false -> has_char "/" base = false ->
  has_char "-" build = false -> has_char "/" build = false ->
  PyStr.split "-" (PyStr.basename (dir ++ "/" ++ name ++ "-" ++ base ++ "-" ++ build))
    = [name; base; build].
Proof.
  intros Hn Hn' Hb Hb' Hu Hu'.
  rewrite basename_dir.
  - rewrite (split_first "-" EmptyString name _ Hn).
    rewrite (split_first "-" EmptyString base _ Hb).
    now rewrite (split_none "-" EmptyString build Hu).
  - rewrite !has_char_app, Hn', Hb', Hu'. reflexivity.
Qed.

(** X3: a file [<name>-<tag>.dev<digits>-<build>], whatever its directory,
    decodes to the tag as written and to the number the digits spell, not
    shifted and not marked by [Package.version]. *)
Theorem version_dot_dev_name :
  forall dir name tag digits build : string,
    has_char "-" name = false -> has_char "/" name = false ->
    has_char "-" build = false -> has_char "/" build = false ->
    has_char "-" tag = false -> has_char "/" tag = false ->
    has_char "d" tag = false ->
    numeral digits ->
    exists d,
      PyStr.int digits = Some d /\ 0 <= d
      /\ version (dir ++ "/" ++ name ++ "-" ++ (tag ++ ".dev" ++ digits)
                      ++ "-" ++ build)
         = Ok (tag, d).
Proof.
  intros dir name tag digits build Hn Hn' Hu Hu' Ht Ht' Htd Hdigits.
  destruct (int_numeral _ Hdigits) as [d Hd].
  destruct Hdigits as [_ Hdigits].
  assert (Hno : forall c, PyStr.digit_val c = None -> has_char c digits = false)
    by (intros c Hc; now apply numeral_no_char).
  exists d. split; [exact Hd|]. split.
  - apply (int_nonneg digits); [now apply Hno|exact Hd].
  - unfold version.
    rewrite split_names; try assumption.
    + cbn [unpack3 rbind].
      rewrite contains_app_r by apply (contains_self "." "dev" digits).
      rewrite (split_first_second "." "d" "ev" tag digits eq_refl Htd).
      rewrite (split_none "." "dev" digits) by now apply Hno.
      cbn [unpack2 rbind]. now rewrite Hd.
    + rewrite !has_char_app, Ht, (Hno "-"%char eq_refl). reflexivity.
    + rewrite !has_char_app, Ht', (Hno "/"%char eq_refl). reflexivity.
Qed.

(** X4: a file [<name>-<base>-<build>] whose base does not hold [dev]
    decodes to the base itself and the count 0. *)
Theorem version_release_name :
  forall dir name base build : string,
    has_char "-" name = false -> has_char "/" name = false ->
    has_char "-" build = false -> has_char "/" build = false ->
    has_char "-" base = false -> has_char "/" base = false ->
    PyStr.contains "dev" base = false ->
    version (dir ++ "/" ++ name ++ "-" ++ base ++ "-" ++ build) = Ok (base, 0).
Proof.
  intros dir name base build Hn Hn' Hu Hu' Hb Hb' Hdev.
  unfold version. rewrite split_names by assumption.
  cbn [unpack3 rbind]. rewrite Hdev.
  destruct (PyStr.contains ".dev" base) eqn:Hdot; [|reflexivity].
  apply contains_tail in Hdot. congruence.
Qed.

End VersionNames.

(** ** Marked counts are exactly the encodings *)

Section MarkedCounts.

(** X5: [filter_commit] reports the marker with offset [o] exactly for the
    value [(o << 32) | BAD_MAGIC]: every marked value is the encoding of
    what it decodes to. *)
Theorem filter_commit_marked_iff :
  forall x o : Z,
    filter_commit x = (o, true) <-> x = encode_anomalous o.
Proof.
  intros x o. split.
  - unfold filter_commit.
    destruct (Z.land x 0xffffffff =? BAD_MAGIC) eqn:E; [|discriminate].
    intros H. injection H as <-.
    apply Z.eqb_eq in E. rewrite mask_is_ones, Z.land_ones in E by lia.
    rewrite encode_anomalous_sum, Z.shiftr_div_pow2 by lia.
    rewrite <- E. rewrite Z.mul_comm. apply Z.div_mod. lia.
  - intros ->. apply filter_commit_encode.
Qed.

End MarkedCounts.

(** ** What [safe_command] and [git] let through *)

Section SafeCommands.

Lemma has_char_join (c : ascii) (l : list string) :
  Ascii.eqb c " " = false ->
  has_char c (PyStr.join " " l) = existsb (has_char c) l.
Proof.
  intros Hc. unfold PyStr.join.
  induction l as [|a l IH]; [reflexivity|].
  destruct l as [|b l].
  - cbn [String.concat existsb]. now rewrite orb_false_r.
  - change (String.concat " " (a :: b :: l))
      with (a ++ " " ++ String.concat " " (b :: l)).
    rewrite !has_char_app, IH.
    cbn [has_char existsb]. now rewrite Hc.
Qed.

Lemma forallb_true {A} (l : list A) : forallb (fun _ => true) l = true.
Proof. induction l; [reflexivity|exact IHl]. Qed.

Lemma forallb_andb {A} (f g : A -> bool) (l : list A) :
  forallb (fun x => f x && g x) l = forallb f l && forallb g l.
Proof.
  induction l as [|x l IH]; [reflexivity|].
  cbn [forallb]. rewrite IH.
  destruct (f x), (g x), (forallb f l), (forallb g l); reflexivity.
Qed.

Lemma forallb_same {A} (f g : A -> bool) (l : list A) :
  (forall x, f x = g x) -> forallb f l = forallb g l.
Proof.
  intros H. induction l as [|x l IH]; [reflexivity|].
  cbn [forallb]. now rewrite H, IH.
Qed.

Lemma forallb_none_exists {A B} (f : A -> B -> bool) (cs : list A) (l : list B) :
  forallb (fun ch => negb (existsb (f ch) l)) cs
    = forallb (fun a => forallb (fun ch => negb (f ch a)) cs) l.
Proof.
  induction l as [|a l IH].
  - cbn [existsb negb forallb]. apply forallb_true.
  - cbn [existsb forallb]. rewrite <- IH, <- forallb_andb.
    apply forallb_same. intros ch. apply negb_orb.
Qed.

Lemma safe_command_args (x : list string) :
  safe_command x = forallb escape_free x.
Proof.
  unfold safe_command, escape_free.
  rewrite <- forallb_none_exists.
  change (list_ascii_of_string ESCAPE_CHARS) with ["\"; ";"; "&"; "|"]%char.
  cbn [forallb].
  now rewrite !contains_char, !has_char_join by reflexivity.
Qed.

(** X6: [safe_command] accepts a command line exactly when each of its
    arguments, taken alone, holds none of the characters [\ ; & |]: joining
    the arguments with spaces neither hides nor creates one. *)
Theorem safe_command_per_argument :
  forall x : list string,
    safe_command x = true <-> Forall (fun arg => escape_free arg = true) x.
Proof.
  intros x. rewrite safe_command_args, forallb_forall, Forall_forall.
  reflexivity.
Qed.

End SafeCommands.

Section GitCalls.

Variable w : World.

(** [git] leaves the working directory alone, and starts at most the one
    command it was asked for. *)
Lemma git_state (task : string) (args : list string) (st : state) :
  snd (git w task args st)
    = ran st (cwd st)
          (if safe_command ("git" :: task :: args)
              && existsb (String.eqb task) tasks
           then ["git" :: task :: args] else []).
Proof.
  unfold git.
  destruct (safe_command ("git" :: task :: args)); cbn [negb andb].
  - destruct (existsb (String.eqb task) tasks); cbn [negb].
    + unfold check_output, ran.
      destruct (run_process w (cwd st) ("git" :: task :: args)) as [rc out|e].
      * destruct (rc =? 0); reflexivity.
      * destruct e; reflexivity.
    + unfold raise. cbn [snd]. now rewrite ran_nil.
  - unfold raise. cbn [snd]. now rewrite ran_nil.
Qed.

Lemma git_refuses (task : string) (args : list string) (st : state) :
  safe_command ("git" :: task :: args) && existsb (String.eqb task) tasks = false ->
  git w task args st = (Raise ValueError, st).
Proof.
  unfold git. intros H.
  destruct (safe_command ("git" :: task :: args)); cbn [negb andb] in *;
    [|reflexivity].
  now rewrite H.
Qed.

(** X7: [git] never starts a process for a command line it has not checked.
    Either it raises [ValueError] with nothing run, or the one command it
    ran has arguments free of the characters [\ ; & |] and a task among
    clone, checkout, log and fetch; the working directory stays. *)
Theorem git_starts_only_checked :
  forall (task : string) (args : list string) (st : state),
    (git w task args st = (Raise ValueError, st)
     \/ (snd (git w task args st) = ran st (cwd st) ["git" :: task :: args]
         /\ Forall (fun arg => escape_free arg = true) (task :: args)
         /\ In task tasks)).
Proof.
  intros task args st.
  destruct (safe_command ("git" :: task :: args)
            && existsb (String.eqb task) tasks) eqn:E.
  - right. rewrite git_state, E. split; [reflexivity|].
    apply andb_true_iff in E. destruct E as [Hsafe Htask].
    rewrite safe_command_args in Hsafe. cbn [forallb] in Hsafe.
    apply andb_true_iff in Hsafe. destruct Hsafe as [_ Hsafe].
    split.
    + apply Forall_forall. now apply forallb_forall.
    + apply existsb_exists in Htask. destruct Htask as (t & Hin & Heq).
      apply String.eqb_eq in Heq. now subst.
  - left. now apply git_refuses.
Qed.



End GitCalls.

(** ** Where the resolver ends, and what it ran on the way *)

Section ResolverState.

Variable w : World.

Lemma started_for_cons (k : nat) (t : string) (tags : list string) :
  started_for (S k) (t :: tags) = (started (Some t) ++ started_for k tags)%list.
Proof. reflexivity. Qed.

Lemma started_for_one (t : string) (tags : list string) :
  started_for 1 (t :: tags) = started (Some t).
Proof. unfold started_for. cbn. apply app_nil_r. Qed.

Lemma first_line_loop_state (tags : list string) (result : string) :
  forall st, exists k,
    snd (first_line_loop w tags result st) = ran st (cwd st) (started_for k tags).
Proof.
  induction tags as [|salvo tags IH]; intros st.
  - exists O. cbn. now rewrite ran_nil.
  - rewrite first_line_loop_cons. cbv zeta.
    destruct (query_log w (cwd st) (Some salvo)) as [out|e].
    + exists 1%nat. now rewrite started_for_one.
    + destruct e;
        try (exists 1%nat; now rewrite started_for_one).
      destruct (IH (ran st (cwd st) (started (Some salvo)))) as [k Hk].
      exists (S k). rewrite Hk, started_for_cons. cbn [cwd ran].
      now rewrite ran_ran.
Qed.

Lemma lines_loop_state (tags : list string) (result : log_result) :
  forall st, exists k,
    snd (lines_loop w tags result st) = ran st (cwd st) (started_for k tags).
Proof.
  induction tags as [|salvo tags IH]; intros st.
  - exists O. cbn. now rewrite ran_nil.
  - rewrite lines_loop_cons. cbv zeta.
    destruct (query_log w (cwd st) (Some salvo)) as [out|e].
    + exists 1%nat. now rewrite started_for_one.
    + destruct e;
        try (exists 1%nat; now rewrite started_for_one).
      destruct (IH (ran st (cwd st) (started (Some salvo)))) as [k Hk].
      exists (S k). rewrite Hk, started_for_cons. cbn [cwd ran].
      now rewrite ran_ran.
Qed.

Lemma resolve_missing (path tag : string) (post_commit : Z) (st : state) :
  path_exists w path = false ->
  git_commit_from_offset w path tag post_commit st = (Raise FileNotFoundError, st).
Proof.
  intros Hp. unfold git_commit_from_offset, bind, getcwd. now rewrite Hp.
Qed.

(** The state in which [git_commit_from_offset] ends, in an existing
    directory: back where it started when it returns, inside the directory
    when it raises, having run the query of the current branch or the
    queries of the first candidates. *)
Lemma resolve_state (path tag : string) (post_commit : Z) (st : state) :
  path_exists w path = true ->
  exists cmds,
    (cmds = [log_cmd None]
     \/ exists k, cmds = started_for k (tag_candidates (repo_name path) tag))
    /\ snd (git_commit_from_offset w path tag post_commit st)
       = ran st (match fst (git_commit_from_offset w path tag post_commit st) with
                 | Ok _ => cwd st
                 | Raise _ => path
                 end) cmds.
Proof.
  intros Hp. rewrite resolve_enter by exact Hp. cbv zeta.
  set (tags := tag_candidates (repo_name path) tag).
  destruct (post_commit =? 0).
  - destruct (first_line_loop_state tags "" (ran st path [])) as [k Hk].
    exists (started_for k tags). split; [right; now exists k|].
    unfold bind, lift, chdir, ret.
    destruct (first_line_loop w tags "" (ran st path [])) as [[result|e] st2];
      cbn [snd] in Hk; subst st2; cbn [cwd ran];
      [|cbn [fst snd]; now rewrite ran_ran].
    destruct (unpack2 (PyStr.split_max " " 1 result)) as [[rev message]|e];
      cbn [fst snd]; unfold ran; cbn [cwd calls]; now rewrite app_nil_r.
  - destruct (snd (filter_commit post_commit)).
    + exists [log_cmd None]. split; [now left|].
      unfold bind, lift, chdir, ret. rewrite git_log_run. cbn [cwd ran].
      change (started None) with [log_cmd None].
      destruct (query_log w path None) as [out|e];
        [|cbn [fst snd]; now rewrite ran_ran].
      destruct (of_option IndexError
                  (PyStr.index (PyStr.splitlines out)
                               (fst (filter_commit post_commit))))
        as [line|e]; [|cbn [fst snd]; now rewrite ran_ran].
      destruct (unpack2 (PyStr.split_max " " 1 line)) as [[rev message]|e];
        cbn [fst snd]; unfold ran; cbn [cwd calls];
        now rewrite ?app_nil_r.
    + destruct (lines_loop_state tags (Str "") (ran st path [])) as [k Hk].
      exists (started_for k tags). split; [right; now exists k|].
      unfold bind, lift, chdir, ret.
      destruct (lines_loop w tags (Str "") (ran st path [])) as [[result|e] st2];
        cbn [snd] in Hk; subst st2; cbn [cwd ran];
        [|cbn [fst snd]; now rewrite ran_ran].
      destruct (getitem result (len result - post_commit)) as [line|e];
        [|cbn [fst snd]; now rewrite ran_ran].
      destruct (unpack2 (PyStr.split_max " " 1 (PyStr.rstrip line)))
        as [[rev message]|e];
        cbn [fst snd]; unfold ran; cbn [cwd calls]; now rewrite app_nil_r.
Qed.

End ResolverState.

Section ResolverInvariants.

Variable w : World.

Lemma started_for_length (k : nat) (tags : list string) :
  (List.length (started_for k tags) <= List.length tags)%nat.
Proof.
  unfold started_for. revert k.
  induction tags as [|t tags IH]; intros k.
  - now rewrite firstn_nil.
  - destruct k as [|k]; cbn [firstn flat_map List.length]; [lia|].
    rewrite length_app. specialize (IH k).
    assert (Hone : (List.length (started (Some t)) <= 1)%nat)
      by (unfold started; destruct (safe_command (log_cmd (Some t)));
          cbn [List.length]; lia).
    lia.
Qed.

Lemma started_for_queries (k : nat) (tags : list string) :
  Forall (fun c => exists t, In t tags /\ c = log_cmd (Some t))
         (started_for k tags).
Proof.
  unfold started_for. revert k.
  induction tags as [|t tags IH]; intros k.
  - rewrite firstn_nil. constructor.
  - destruct k as [|k]; cbn [firstn flat_map]; [constructor|].
    apply Forall_app. split.
    + unfold started. destruct (safe_command (log_cmd (Some t)));
        repeat constructor.
      exists t. split; [now left|reflexivity].
    + eapply Forall_impl; [|apply IH].
      intros c (t' & Hin & Hc). exists t'. split; [now right|exact Hc].
Qed.


(** X10: whatever the world answers, [git_commit_from_offset] only reads:
    the commands it runs are at most four, each of them [git log --oneline]
    for the current branch or for one of the candidate tags, added after
    the commands run before. *)
Theorem resolve_runs_only_log :
  forall (path tag : string) (post_commit : Z) (st : state),
    exists cmds,
      calls (snd (git_commit_from_offset w path tag post_commit st))
        = (calls st ++ cmds)%list
      /\ (List.length cmds <= 4)%nat
      /\ Forall (fun c =>
                   c = log_cmd None
                   \/ exists t, In t (tag_candidates (repo_name path) tag)
                                /\ c = log_cmd (Some t))
                cmds.
Proof.
  intros path tag post_commit st.
  destruct (path_exists w path) eqn:Hp.
  - destruct (resolve_state w path tag post_commit st Hp)
      as (cmds & Hcmds & Hst).
    exists cmds. rewrite Hst. split; [reflexivity|].
    destruct Hcmds as [->|[k ->]].
    + split; [cbn; lia|]. repeat constructor.
    + split.
      * apply (started_for_length k (tag_candidates (repo_name path) tag)).
      * eapply Forall_impl; [|apply started_for_queries].
        intros c H. now right.
  - exists []. rewrite resolve_missing by exact Hp.
    cbn [snd]. rewrite app_nil_r. split; [reflexivity|].
    split; [cbn; lia|constructor].
Qed.

(** X11: with a marked count, the tag plays no part at all: the result and
    the final state are the same for any two tags, on success and on
    failure alike. *)
Theorem marked_count_ignores_tag :
  forall (path tag tag' : string) (post_commit : Z) (st : state),
    snd (filter_commit post_commit) = true ->
    git_commit_from_offset w path tag post_commit st
      = git_commit_from_offset w path tag' post_commit st.
Proof.
  intros path tag tag' post_commit st Hmark.
  destruct (path_exists w path) eqn:Hp.
  - rewrite !resolve_enter by exact Hp. cbv zeta. rewrite Hmark.
    destruct (post_commit =? 0) eqn:Hz; [|reflexivity].
    apply Z.eqb_eq in Hz. subst. discriminate Hmark.
  - now rewrite !resolve_missing.
Qed.

End ResolverInvariants.

(** ** Logs the resolver cannot read *)

Section UnreadableLogs.

Variable w : World.

Lemma no_space_has_char (s : string) (c : ascii) :
  no_space s = true -> PyStr.is_space c = true -> has_char c s = false.
Proof.
  intros Hs Hc. induction s as [|x s IH]; [reflexivity|].
  cbn [no_space] in Hs. apply andb_true_iff in Hs. destruct Hs as [Hx Hs].
  cbn [has_char]. rewrite (IH Hs), orb_false_r.
  apply Ascii.eqb_neq. intros ->. now rewrite Hc in Hx.
Qed.

Lemma rstrip_blank_tail (a b : string) :
  PyStr.rstrip b = EmptyString -> PyStr.rstrip (a ++ b) = PyStr.rstrip a.
Proof.
  unfold PyStr.rstrip. intros Hb.
  induction a as [|x a IH]; [exact Hb|].
  change (String x a ++ b) with (String x (a ++ b)).
  cbn [PyStr.rstrip_by]. now rewrite IH.
Qed.

Lemma split_max_no_space (s : string) :
  has_char " " s = false -> PyStr.split_max " " 1 s = [s].
Proof.
  unfold PyStr.split_max. induction s as [|x s IH]; [reflexivity|].
  cbn [has_char]. intros H. apply orb_false_iff in H. destruct H as [Hx Hs].
  cbn [PyStr.split_go]. now rewrite prefix_char, Hx, (IH Hs).
Qed.

(** A log line with a blank subject loses its space when it is stripped. *)
Lemma rstrip_blank_subject (hash subject : string) :
  no_space hash = true ->
  PyStr.rstrip subject = EmptyString ->
  PyStr.rstrip (log_line hash subject) = hash.
Proof.
  intros Hh Hs. unfold log_line.
  rewrite rstrip_blank_tail.
  - unfold PyStr.rstrip. apply rstrip_by_none.
    intros c Hc. now apply no_space_has_char.
  - change (" " ++ subject) with (String " " subject).
    unfold PyStr.rstrip in *. cbn [PyStr.rstrip_by]. now rewrite Hs.
Qed.

(** X12: in the branch that counts commits, the chosen log line is
    stripped on the right before it is split, so a commit whose subject is
    blank makes the resolution raise [ValueError] instead of giving its
    hash. *)
Theorem count_blank_subject :
  forall (path tag : string) (post_commit : Z) (skipped rest : list string)
         (c out hash subject : string) (lines : list string) (st : state),
    path_exists w path = true ->
    tag_candidates (repo_name path) tag = (skipped ++ c :: rest)%list ->
    Forall (refused w path) skipped ->
    query_log w path (Some c) = Ok out ->
    PyStr.splitlines out = lines ->
    snd (filter_commit post_commit) = false ->
    post_commit <> 0 ->
    PyStr.index lines (Z.of_nat (List.length lines) - post_commit)
      = Some (log_line hash subject) ->
    no_space hash = true ->
    PyStr.rstrip subject = EmptyString ->
    git_commit_from_offset w path tag post_commit st
      = (Raise ValueError, ran st path (tag_cmds (skipped ++ [c]))).
Proof.
  intros path tag post_commit skipped rest c out hash subject lines st
         Hp Htags Hskip Hq Hlines Hplain Hnz Hline Hhash Hsubj.
  rewrite (count_run w path tag post_commit skipped rest c out)
    by assumption.
  rewrite Hlines. unfold pick.
  unfold bind at 1. unfold lift at 1. cbn [getitem len].
  rewrite Hline. cbn [of_option].
  rewrite rstrip_blank_subject by assumption.
  rewrite split_max_no_space
    by (apply no_space_has_char; [exact Hhash|reflexivity]).
  reflexivity.
Qed.

(** X13: when git accepts a candidate and prints nothing, the resolution
    ends there with [IndexError], for every count without a marker; the
    candidates after it are not asked. *)
Theorem accepted_empty_log :
  forall (path tag : string) (post_commit : Z) (skipped rest : list string)
         (c : string) (st : state),
    path_exists w path = true ->
    tag_candidates (repo_name path) tag = (skipped ++ c :: rest)%list ->
    Forall (refused w path) skipped ->
    query_log w path (Some c) = Ok EmptyString ->
    snd (filter_commit post_commit) = false ->
    git_commit_from_offset w path tag post_commit st
      = (Raise IndexError, ran st path (tag_cmds (skipped ++ [c]))).
Proof.
  intros path tag post_commit skipped rest c st Hp Htags Hskip Hq Hplain.
  destruct (Z.eq_dec post_commit 0) as [->|Hnz].
  - rewrite resolve_enter by exact Hp. cbv zeta. rewrite Htags. cbn [Z.eqb].
    unfold bind at 1.
    rewrite first_line_loop_refused by exact Hskip.
    rewrite first_line_loop_cons. cbv zeta. cbn [cwd ran].
    rewrite Hq, (query_ok_started _ _ _ _ Hq).
    cbn [PyStr.splitlines].
    rewrite index_out_of_range by (cbn [List.length]; lia).
    cbn [of_option]. unfold tag_cmds. rewrite map_app. cbn [map].
    now rewrite !ran_ran.
  - rewrite (count_run w path tag post_commit skipped rest c EmptyString)
      by assumption.
    cbn [PyStr.splitlines]. unfold pick.
    unfold bind at 1. unfold lift at 1. cbn [getitem len List.length].
    rewrite index_out_of_range by (cbn [List.length]; lia).
    reflexivity.
Qed.

End UnreadableLogs.

(** ** The candidate tags are all different *)

Section Candidates.

Lemma length_append (a b : string) :
  String.length (a ++ b) = (String.length a + String.length b)%nat.
Proof.
  induction a as [|x a IH]; [reflexivity|]. cbn. now rewrite IH.
Qed.

(** Two strings of different lengths differ. *)
Ltac by_length Hlen :=
  apply Hlen;
  repeat first [rewrite length_append | progress cbn [String.length append]];
  lia.

(** X14: the four candidate tags are pairwise different, whatever the name
    and the tag, so the resolver never asks git the same question twice. *)
Theorem tag_candidates_distinct :
  forall name tag : string, NoDup (tag_candidates name tag).
Proof.
  intros name tag. unfold tag_candidates, PyStr.join.
  cbn [String.concat].
  assert (Hlen : forall a b : string,
             String.length a <> String.length b -> a <> b)
    by (intros a b H ->; contradiction).
  assert (H12 : tag <> "v" ++ tag) by by_length Hlen.
  assert (H13 : tag <> name ++ "-" ++ tag) by by_length Hlen.
  assert (H14 : tag <> name ++ "-" ++ "v" ++ tag) by by_length Hlen.
  assert (H24 : "v" ++ tag <> name ++ "-" ++ "v" ++ tag) by by_length Hlen.
  assert (H34 : name ++ "-" ++ tag <> name ++ "-" ++ "v" ++ tag)
    by by_length Hlen.
  assert (H23 : "v" ++ tag <> name ++ "-" ++ tag).
  { destruct name as [|x name]; [discriminate|]. by_length Hlen. }
  repeat constructor; cbn [In]; intuition congruence.
Qed.

End Candidates.

(** ** The name the resolver reads off the clone *)

Section CloneName.

Lemma uint_no_slash (d : Decimal.uint) :
  has_char "/" (NilEmpty.string_of_uint d) = false.
Proof. induction d; cbn; trivial. Qed.

Lemma str_no_slash (n : Z) : has_char "/" (PyStr.str n) = false.
Proof.
  unfold PyStr.str, NilZero.string_of_int, NilZero.string_of_uint.
  destruct (Z.to_int n) as [d|d]; cbn [has_char];
    destruct d; try reflexivity; apply uint_no_slash.
Qed.

Lemma ends_with_slash_split (a : string) :
  ends_with_slash a = true -> exists a', a = a' ++ "/".
Proof.
  induction a as [|x a IH]; [discriminate|].
  cbn [ends_with_slash]. destruct a as [|y a].
  - intros H. apply Ascii.eqb_eq in H. subst. now exists EmptyString.
  - intros H. destruct (IH H) as [a' Ha'].
    exists (String x a'). cbn. now rewrite <- Ha'.
Qed.

Lemma path_join_basename (a b : string) :
  has_char "/" b = false -> PyStr.basename (path_join a b) = b.
Proof.
  intros Hb. unfold path_join.
  assert (Hpre : prefix "/" b = false).
  { destruct b as [|x b]; [reflexivity|].
    rewrite prefix_char. cbn [has_char] in Hb.
    now apply orb_false_iff in Hb. }
  rewrite Hpre.
  destruct (String.eqb_spec a EmptyString) as [->|Hne]; cbn [orb].
  - now apply basename_plain.
  - destruct (ends_with_slash a) eqn:He.
    + destruct (ends_with_slash_split a He) as [a' ->].
      rewrite append_assoc. now apply basename_dir.
    + now apply basename_dir.
Qed.

Lemma hd_split_app (c : ascii) (a b : string) :
  hd EmptyString (PyStr.split (String c EmptyString) (a ++ String c b))
    = hd EmptyString (PyStr.split (String c EmptyString) a).
Proof.
  unfold PyStr.split. induction a as [|x a IH].
  - cbn [append PyStr.split_go]. rewrite prefix_char, Ascii.eqb_refl.
    reflexivity.
  - change (String x a ++ String c b) with (String x (a ++ String c b)).
    cbn [PyStr.split_go]. rewrite !prefix_char.
    destruct (Ascii.eqb c x); [reflexivity|].
    pose proof (split_go_not_nil (String c EmptyString) None 0
                                 (a ++ String c b)) as H1.
    pose proof (split_go_not_nil (String c EmptyString) None 0 a) as H2.
    destruct (PyStr.split_go (String c EmptyString) None 0 (a ++ String c b));
      [contradiction|].
    destruct (PyStr.split_go (String c EmptyString) None 0 a);
      [contradiction|].
    cbn [hd] in *. now rewrite IH.
Qed.

(** X15: for the directory the main program clones into, the name that
    [git_commit_from_offset] reads back is the part of the package name
    before its first hyphen, so the candidates [<name>-<tag>] and
    [<name>-v<tag>] of a package with a hyphen in its name are built from
    a cut name. *)
Theorem clone_name_first_token :
  forall (tempdir name tag : string) (post_commit : Z),
    has_char "/" name = false ->
    has_char "/" tag = false ->
    repo_name (clone_dest tempdir name tag post_commit)
      = hd EmptyString (PyStr.split "-" name).
Proof.
  intros tempdir name tag post_commit Hn Ht.
  assert (Hdest : forall n : Z,
             repo_name (path_join tempdir
                                  (PyStr.join "-" [name; tag; PyStr.str n]))
             = hd EmptyString (PyStr.split "-" name)).
  { intros n. unfold repo_name, PyStr.join. cbn [String.concat].
    rewrite path_join_basename.
    - apply (hd_split_app "-" name (tag ++ "-" ++ PyStr.str n)).
    - rewrite !has_char_app, Hn, Ht, str_no_slash. reflexivity. }
  unfold clone_dest.
  destruct (filter_commit post_commit) as [m b]. destruct b; apply Hdest.
Qed.

End CloneName.

(** ** [SpecFile] *)

Section SpecFiles.

Variable read : string -> result string.

Lemma splitlines_nil (s : string) : PyStr.splitlines s = [] -> s = EmptyString.
Proof.
  destruct s as [|c s]; [reflexivity|].
  cbn [PyStr.splitlines].
  destruct (PyStr.is_linebreak c); [discriminate|].
  destruct (PyStr.splitlines s); discriminate.
Qed.

(** X16: [SpecFile] never raises [SpecFileError]: a file that passes
    [check_format] holds [@EXPLICIT], so it has at least one line, and the
    test for a file without data cannot fire. *)
Theorem specfile_never_no_data :
  forall (filename : string) (include_only include_only_urls : list string),
    SpecFile_init read filename include_only include_only_urls
      <> SpecRaise SpecFileError.
Proof.
  intros filename include_only include_only_urls.
  unfold SpecFile_init, check_format.
  destruct (read filename) as [text|e]; [|discriminate].
  destruct (PyStr.contains "@EXPLICIT" text) eqn:Hfmt; cbn [negb];
    [|discriminate].
  destruct (PyStr.splitlines text) as [|l ls] eqn:Hlines; cbn [truthy negb];
    [|discriminate].
  apply splitlines_nil in Hlines. subst. discriminate Hfmt.
Qed.

(** Reading a well-formed file reaches the loop. *)
Lemma specfile_loop (filename text : string) (inc u : list string) :
  read filename = Ok text ->
  PyStr.contains "@EXPLICIT" text = true ->
  SpecFile_init read filename inc u
    = SpecOk (fold_left (spec_line inc u) (PyStr.splitlines text)
                        {| own_urls := [];
                           include_pkgs := [];
                           include_urls := [];
                           urls_bound := OwnUrls;
                           data := PyStr.splitlines text |}).
Proof.
  intros Hread Hfmt. unfold SpecFile_init, check_format.
  rewrite Hread, Hfmt. cbn [negb].
  destruct (PyStr.splitlines text) as [|l ls] eqn:Hlines; [|reflexivity].
  apply splitlines_nil in Hlines. subst. discriminate Hfmt.
Qed.

Lemma unfiltered_fold (lines : list string) :
  forall sf,
    urls_bound sf = OwnUrls ->
    urls (fold_left (spec_line [] []) lines sf)
      = (urls sf ++ filter (fun url => negb (skipped_line url))
                           (map PyStr.rstrip lines))%list.
Proof.
  induction lines as [|line lines IH]; intros sf Hb.
  - cbn. now rewrite app_nil_r.
  - cbn [fold_left map filter].
    unfold spec_line at 2. cbn [truthy andb].
    destruct (skipped_line (PyStr.rstrip line)); cbn [negb].
    + now apply IH.
    + rewrite IH by (unfold append_urls; now rewrite Hb).
      unfold urls, append_urls. rewrite Hb. cbn [urls_bound own_urls].
      now rewrite <- app_assoc.
Qed.

(** X17: with no filter, a [SpecFile] lists the lines of the file, stripped
    on the right, that are not empty and start with neither [#] nor [@], in
    the order of the file. *)
Theorem specfile_unfiltered :
  forall filename text : string,
    read filename = Ok text ->
    PyStr.contains "@EXPLICIT" text = true ->
    spec_urls read filename [] [] = SpecOk (kept_lines text).
Proof.
  intros filename text Hread Hfmt. unfold spec_urls.
  rewrite (specfile_loop filename text [] [] Hread Hfmt).
  now rewrite unfiltered_fold.
Qed.

Lemma same_urls (a b : SpecFile) :
  same_but_include_urls a b -> urls a = urls b.
Proof.
  intros (Ho & Hp & Hb & Hn). unfold urls. rewrite <- Hb.
  destruct (urls_bound a); [exact Ho|exact Hp|contradiction].
Qed.

Lemma match_url_same (url : string) (ps : list string) :
  forall a b,
    same_but_include_urls a b ->
    same_but_include_urls (fold_left (match_url url) ps a) b.
Proof.
  induction ps as [|p ps IH]; intros a b H; [exact H|].
  cbn [fold_left]. apply IH. unfold match_url.
  destruct (PyStr.contains p url); [|exact H].
  destruct H as (Ho & Hp & Hb & Hn). now repeat split.
Qed.

Lemma same_sym (a b : SpecFile) :
  same_but_include_urls a b -> same_but_include_urls b a.
Proof.
  intros (Ho & Hp & Hb & Hn). repeat split; try congruence.
Qed.

Lemma match_pkg_same (url tarball : string) (ps : list string) :
  forall a b,
    same_but_include_urls a b ->
    same_but_include_urls (fold_left (match_pkg url tarball) ps a)
                          (fold_left (match_pkg url tarball) ps b).
Proof.
  induction ps as [|p ps IH]; intros a b H; [exact H|].
  cbn [fold_left]. apply IH. unfold match_pkg.
  rewrite (same_urls a b H).
  destruct (prefix (p ++ "-") tarball); [|exact H].
  destruct (negb (existsb (String.eqb p) (urls b))); [|exact H].
  destruct H as (Ho & Hp & Hb & Hn).
  repeat split; cbn; congruence.
Qed.

Lemma spec_line_same (inc u1 u2 : list string) (line : string) (a b : SpecFile) :
  truthy inc = true ->
  same_but_include_urls a b ->
  same_but_include_urls (spec_line inc u1 a line) (spec_line inc u2 b line).
Proof.
  intros Hinc H. unfold spec_line.
  destruct (skipped_line (PyStr.rstrip line)); [exact H|].
  rewrite Hinc. cbn [andb].
  assert (Hu : forall u x y,
             same_but_include_urls x y ->
             same_but_include_urls
               (if truthy u then fold_left (match_url (PyStr.rstrip line)) u x
                else x) y).
  { intros u x y Hxy. destruct (truthy u); [|exact Hxy].
    now apply match_url_same. }
  pose proof (Hu u1 a b H) as H1.
  apply same_sym in H1. pose proof (Hu u2 b _ H1) as H2.
  apply same_sym in H2.
  pose proof (match_pkg_same (PyStr.rstrip line)
                             (PyStr.basename (PyStr.rstrip line)) inc _ _ H2)
    as (Ho & Hp & Hb & Hn).
  assert (Hbind : forall x y,
             own_urls x = own_urls y -> include_pkgs x = include_pkgs y ->
             same_but_include_urls (bind_urls SameAsPkgs x)
                                   (bind_urls SameAsPkgs y)).
  { intros x y Hx Hy. repeat split; cbn; try assumption. discriminate. }
  destruct (truthy u1), (truthy u2); now apply Hbind.
Qed.

Lemma spec_fold_same (inc u1 u2 : list string) (lines : list string) :
  truthy inc = true ->
  forall a b,
    same_but_include_urls a b ->
    same_but_include_urls (fold_left (spec_line inc u1) lines a)
                          (fold_left (spec_line inc u2) lines b).
Proof.
  intros Hinc. induction lines as [|line lines IH]; intros a b H; [exact H|].
  cbn [fold_left]. apply IH. now apply spec_line_same.
Qed.

(** X18: when a package filter is given, the URL filter has no effect at
    all: the URLs listed, or the exception raised, are the same for any two
    URL filters. *)
Theorem specfile_package_filter_wins :
  forall (filename : string) (include_only urls1 urls2 : list string),
    include_only <> [] ->
    spec_urls read filename include_only urls1
      = spec_urls read filename include_only urls2.
Proof.
  intros filename inc u1 u2 Hinc.
  assert (Ht : truthy inc = true) by (destruct inc; [contradiction|reflexivity]).
  unfold spec_urls, SpecFile_init.
  destruct (check_format (read filename)); [|reflexivity].
  destruct (read filename) as [text|e]; [|reflexivity].
  destruct (negb (truthy (PyStr.splitlines text))); [reflexivity|].
  f_equal. apply same_urls. apply spec_fold_same; [exact Ht|].
  repeat split. discriminate.
Qed.

End SpecFiles.

Section SpecFilters.

Variable read : string -> result string.

Lemma match_url_fold (url : string) (ps : list string) :
  forall sf,
    own_urls (fold_left (match_url url) ps sf) = own_urls sf
    /\ include_pkgs (fold_left (match_url url) ps sf) = include_pkgs sf
    /\ urls_bound (fold_left (match_url url) ps sf) = urls_bound sf
    /\ include_urls (fold_left (match_url url) ps sf)
       = (include_urls sf ++ url_matches ps url)%list.
Proof.
  induction ps as [|p ps IH]; intros sf.
  - cbn. now rewrite app_nil_r.
  - cbn [fold_left]. destruct (IH (match_url url sf p)) as (Ho & Hp & Hb & Hu).
    rewrite Ho, Hp, Hb, Hu. unfold match_url, url_matches.
    cbn [flat_map].
    destruct (PyStr.contains p url); cbn [append_include_urls own_urls
      include_pkgs urls_bound include_urls app];
      repeat split; try reflexivity.
    now rewrite <- app_assoc.
Qed.

Lemma url_filter_fold (u : list string) (lines : list string) :
  truthy u = true ->
  forall sf,
    own_urls sf = [] ->
    urls_bound sf <> SameAsPkgs ->
    (urls_bound sf = OwnUrls -> include_urls sf = []) ->
    urls (fold_left (spec_line [] u) lines sf)
      = (urls sf ++ flat_map (url_matches u)
                             (filter (fun url => negb (skipped_line url))
                                     (map PyStr.rstrip lines)))%list.
Proof.
  intros Hu. induction lines as [|line lines IH]; intros sf Ho Hb He.
  - cbn. now rewrite app_nil_r.
  - cbn [fold_left map filter].
    unfold spec_line at 2. cbn [truthy andb]. rewrite Hu.
    destruct (skipped_line (PyStr.rstrip line)); cbn [negb].
    + now apply IH.
    + destruct (match_url_fold (PyStr.rstrip line) u sf) as (Ho' & Hp' & Hb' & Hu').
      rewrite IH.
      * cbn [flat_map]. unfold urls.
        cbn [bind_urls urls_bound include_urls]. rewrite Hu'.
        rewrite <- app_assoc. f_equal.
        destruct (urls_bound sf) eqn:E; [|contradiction|reflexivity].
        now rewrite Ho, (He eq_refl).
      * cbn [bind_urls own_urls]. now rewrite Ho'.
      * cbn [bind_urls urls_bound]. discriminate.
      * cbn [bind_urls urls_bound]. discriminate.
Qed.

(** X19: with a URL filter alone, a [SpecFile] lists each kept line once for
    every pattern that occurs in it, so a line in which two patterns occur
    is listed twice. *)
Theorem specfile_url_filter :
  forall (filename text : string) (include_only_urls : list string),
    read filename = Ok text ->
    PyStr.contains "@EXPLICIT" text = true ->
    include_only_urls <> [] ->
    spec_urls read filename [] include_only_urls
      = SpecOk (flat_map (url_matches include_only_urls) (kept_lines text)).
Proof.
  intros filename text u Hread Hfmt Hu.
  assert (Ht : truthy u = true) by (destruct u; [contradiction|reflexivity]).
  unfold spec_urls.
  rewrite (specfile_loop read filename text [] u Hread Hfmt).
  rewrite (url_filter_fold u _ Ht); try reflexivity.
  cbn [urls_bound]. discriminate.
Qed.

Lemma existsb_not_in (p : string) (l : list string) :
  ~ In p l -> existsb (String.eqb p) l = false.
Proof.
  intros H. destruct (existsb (String.eqb p) l) eqn:E; [|reflexivity].
  apply existsb_exists in E. destruct E as (x & Hin & Heq).
  apply String.eqb_eq in Heq. now subst.
Qed.

Lemma match_pkg_fold (inc : list string) (url tarball : string)
      (ps : list string) :
  ~ In url inc ->
  incl ps inc ->
  forall sf,
    Forall (fun x => ~ In x inc) (urls sf) ->
    urls_bound sf <> SameAsUrls ->
    own_urls (fold_left (match_pkg url tarball) ps sf) = own_urls sf
    /\ urls_bound (fold_left (match_pkg url tarball) ps sf) = urls_bound sf
    /\ include_pkgs (fold_left (match_pkg url tarball) ps sf)
       = (include_pkgs sf
          ++ flat_map (fun p => if prefix (p ++ "-") tarball then [url] else [])
                      ps)%list.
Proof.
  intros Hurl. induction ps as [|p ps IH]; intros Hps sf Hsf Hb.
  - cbn. now rewrite app_nil_r.
  - cbn [fold_left flat_map].
    assert (Hp : In p inc) by (apply Hps; now left).
    assert (Hps' : incl ps inc) by (intros x Hx; apply Hps; now right).
    assert (Hguard : existsb (String.eqb p) (urls sf) = false).
    { apply existsb_not_in. intros Hin.
      rewrite Forall_forall in Hsf. exact (Hsf p Hin Hp). }
    unfold match_pkg at 2 4 6. rewrite Hguard. cbn [negb].
    destruct (prefix (p ++ "-") tarball).
    + destruct (IH Hps' (append_include_pkgs url sf)) as (Ho & Hb' & Hi).
      * unfold urls in *. cbn [append_include_pkgs urls_bound own_urls
                                 include_pkgs include_urls].
        destruct (urls_bound sf); [exact Hsf| |contradiction].
        apply Forall_app. split; [exact Hsf|]. now repeat constructor.
      * exact Hb.
      * rewrite Ho, Hb', Hi.
        cbn [append_include_pkgs own_urls urls_bound include_pkgs].
        repeat split. now rewrite <- app_assoc.
    + now apply IH.
Qed.

Lemma pkg_filter_fold (inc u : list string) (lines : list string) :
  truthy inc = true ->
  Forall (fun x => ~ In x inc)
         (filter (fun url => negb (skipped_line url)) (map PyStr.rstrip lines)) ->
  forall sf,
    own_urls sf = [] ->
    urls_bound sf <> SameAsUrls ->
    (urls_bound sf = OwnUrls -> include_pkgs sf = []) ->
    Forall (fun x => ~ In x inc) (include_pkgs sf) ->
    urls (fold_left (spec_line inc u) lines sf)
      = (urls sf ++ flat_map (pkg_matches inc)
                             (filter (fun url => negb (skipped_line url))
                                     (map PyStr.rstrip lines)))%list.
Proof.
  intros Hinc. induction lines as [|line lines IH]; intros Hkept sf Ho Hb He Hin.
  - cbn. now rewrite app_nil_r.
  - cbn [fold_left map filter] in *.
    unfold spec_line at 2. rewrite Hinc. cbn [andb].
    destruct (skipped_line (PyStr.rstrip line)); cbn [negb] in *.
    + now apply IH.
    + inversion Hkept as [|? ? Hurl Hrest]; subst.
      set (url := PyStr.rstrip line) in *.
      set (sf1 := if truthy u then fold_left (match_url url) u sf else sf).
      assert (H1 : own_urls sf1 = own_urls sf
                   /\ include_pkgs sf1 = include_pkgs sf
                   /\ urls_bound sf1 = urls_bound sf).
      { unfold sf1. destruct (truthy u); [|now repeat split].
        destruct (match_url_fold url u sf) as (A & B & C & _).
        now repeat split. }
      destruct H1 as (Ho1 & Hp1 & Hb1).
      assert (Hurls1 : Forall (fun x => ~ In x inc) (urls sf1)).
      { unfold urls. rewrite Hb1, Ho1, Hp1, Ho.
        destruct (urls_bound sf); [constructor|exact Hin|contradiction]. }
      destruct (match_pkg_fold inc url (PyStr.basename url) inc Hurl
                               (incl_refl inc) sf1 Hurls1)
        as (Ho2 & Hb2 & Hp2); [now rewrite Hb1|].
      set (sf2 := fold_left (match_pkg url (PyStr.basename url)) inc sf1) in *.
      assert (Hsame : (if truthy u then bind_urls SameAsPkgs sf2
                       else bind_urls SameAsPkgs sf2)
                      = bind_urls SameAsPkgs sf2)
        by (destruct (truthy u); reflexivity).
      rewrite Hsame.
      rewrite IH; try assumption.
      * cbn [flat_map]. unfold urls.
        cbn [bind_urls urls_bound include_pkgs].
        rewrite Hp2, Hp1, <- app_assoc. f_equal.
        destruct (urls_bound sf) eqn:E; [|reflexivity|contradiction].
        now rewrite Ho, (He eq_refl).
      * cbn [bind_urls own_urls]. now rewrite Ho2, Ho1.
      * cbn [bind_urls urls_bound]. discriminate.
      * cbn [bind_urls urls_bound]. discriminate.
      * cbn [bind_urls include_pkgs]. rewrite Hp2, Hp1.
        apply Forall_app. split; [exact Hin|].
        apply Forall_forall. intros x Hx.
        apply in_flat_map in Hx. destruct Hx as (p & _ & Hx).
        destruct (prefix (p ++ "-") (PyStr.basename url)); [|contradiction].
        destruct Hx as [<-|[]]. exact Hurl.
Qed.

(** X20: with a package filter, whatever the URL filter, a [SpecFile] lists
    each kept line once for every pattern [p] such that the file name of
    the line starts with [p-], so a line that two patterns fit is listed
    twice: the test meant to keep a URL from being added again compares the
    pattern, not the URL.  (No kept line is itself one of the patterns.) *)
Theorem specfile_package_filter :
  forall (filename text : string) (include_only include_only_urls : list string),
    read filename = Ok text ->
    PyStr.contains "@EXPLICIT" text = true ->
    include_only <> [] ->
    Forall (fun url => ~ In url include_only) (kept_lines text) ->
    spec_urls read filename include_only include_only_urls
      = SpecOk (flat_map (pkg_matches include_only) (kept_lines text)).
Proof.
  intros filename text inc u Hread Hfmt Hinc Hkept.
  assert (Ht : truthy inc = true) by (destruct inc; [contradiction|reflexivity]).
  unfold spec_urls.
  rewrite (specfile_loop read filename text inc u Hread Hfmt).
  rewrite (pkg_filter_fold inc u _ Ht Hkept); try reflexivity.
  - cbn [urls_bound]. discriminate.
  - constructor.
Qed.

End SpecFilters.

(** ** More of the program, on the fixtures *)

Section MoreFixtures.

Lemma version_needs_two_hyphens_sklearn :
  version "https://repo.example/main/scikit-learn-0.23.1-py38_0.tar.bz2"
    = Raise ValueError.
Proof.
  apply (version_needs_two_hyphens
           "https://repo.example/main/scikit-learn-0.23.1-py38_0.tar.bz2").
  vm_compute. discriminate.
Defined.

Lemma version_count_nonneg_numpy : 0 <= 37.
Proof.
  apply (version_count_nonneg "numpy-1.18.0.dev37-0" "1.18.0" 37).
  vm_compute. reflexivity.
Defined.

Lemma version_dot_dev_name_numpy :
  exists d,
    PyStr.int "37" = Some d /\ 0 <= d
    /\ version ("https://repo.example/main" ++ "/" ++ "numpy" ++ "-"
                  ++ ("1.18.0" ++ ".dev" ++ "37") ++ "-" ++ "py38_0.tar.bz2")
       = Ok ("1.18.0", d).
Proof.
  apply (version_dot_dev_name "https://repo.example/main" "numpy" "1.18.0"
                              "37" "py38_0.tar.bz2");
    try reflexivity.
  split; [discriminate|reflexivity].
Defined.

Lemma version_release_name_scipy :
  version ("https://repo.example/free" ++ "/" ++ "scipy" ++ "-" ++ "1.5.2"
             ++ "-" ++ "0.tar.bz2")
    = Ok ("1.5.2", 0).
Proof.
  apply (version_release_name "https://repo.example/free" "scipy" "1.5.2"
                              "0.tar.bz2");
    reflexivity.
Defined.



Lemma marked_count_ignores_tag_fixture :
  git_commit_from_offset fixture repo "1.0.0" (encode_anomalous 2) st0
    = git_commit_from_offset fixture repo "no such tag" (encode_anomalous 2) st0.
Proof.
  apply (marked_count_ignores_tag fixture repo "1.0.0" "no such tag"
                                  (encode_anomalous 2) st0).
  reflexivity.
Defined.

(** The oldest commit of [untitled] has a blank subject: a count of 1
    raises. *)
Lemma count_blank_subject_untitled :
  git_commit_from_offset untitled repo "1.0.0" 1 st0
    = (Raise ValueError, ran st0 repo (tag_cmds (["1.0.0"] ++ ["v1.0.0"]))).
Proof.
  apply (count_blank_subject untitled repo "1.0.0" 1
           ["1.0.0"] ["foo-1.0.0"; "foo-v1.0.0"] "v1.0.0"
           ("c2 Release 1.0.0" ++ NL ++ "c1 " ++ NL) "c1" EmptyString
           ["c2 Release 1.0.0"; "c1 "] st0).
  - reflexivity.
  - reflexivity.
  - constructor; [|constructor].
    exists (CalledProcessError 128). vm_compute. reflexivity.
  - vm_compute. reflexivity.
  - vm_compute. reflexivity.
  - reflexivity.
  - discriminate.
  - vm_compute. reflexivity.
  - reflexivity.
  - reflexivity.
Defined.

(** In [silent] the first candidate is accepted with an empty log: the
    resolution fails though the next candidate, [v1.0.0], is a tag. *)
Lemma accepted_empty_log_silent :
  git_commit_from_offset silent repo "1.0.0" 0 st0
    = (Raise IndexError, ran st0 repo (tag_cmds ([] ++ ["1.0.0"]))).
Proof.
  apply (accepted_empty_log silent repo "1.0.0" 0
           [] ["v1.0.0"; "foo-1.0.0"; "foo-v1.0.0"] "1.0.0" st0).
  - reflexivity.
  - reflexivity.
  - constructor.
  - vm_compute. reflexivity.
  - reflexivity.
Defined.

Lemma clone_name_first_token_sklearn :
  repo_name (clone_dest "/tmp/work" "scikit-learn" "0.23.1" 0) = "scikit".
Proof.
  apply (clone_name_first_token "/tmp/work" "scikit-learn" "0.23.1" 0);
    reflexivity.
Defined.

Lemma specfile_never_no_data_dump :
  SpecFile_init read_dump "env.txt" [] [] <> SpecRaise SpecFileError.
Proof.
  apply (specfile_never_no_data read_dump "env.txt" [] []).
Defined.

Lemma specfile_unfiltered_dump :
  spec_urls read_dump "env.txt" [] []
    = SpecOk ["https://repo.example/main/numpy-1.18.0-0.tar.bz2";
              "https://repo.example/main/numpy-base-1.18.0-0.tar.bz2";
              "https://repo.example/free/scipy-1.5.2-0.tar.bz2"].
Proof.
  apply (specfile_unfiltered read_dump "env.txt" dump); reflexivity.
Defined.

Lemma specfile_package_filter_wins_dump :
  spec_urls read_dump "env.txt" ["scipy"] ["main"]
    = spec_urls read_dump "env.txt" ["scipy"] [].
Proof.
  apply (specfile_package_filter_wins read_dump "env.txt" ["scipy"] ["main"] []).
  discriminate.
Defined.

(** The line of numpy holds both patterns, and is listed twice. *)
Lemma specfile_url_filter_dump :
  spec_urls read_dump "env.txt" [] ["numpy-1"; "main"]
    = SpecOk ["https://repo.example/main/numpy-1.18.0-0.tar.bz2";
              "https://repo.example/main/numpy-1.18.0-0.tar.bz2";
              "https://repo.example/main/numpy-base-1.18.0-0.tar.bz2"].
Proof.
  apply (specfile_url_filter read_dump "env.txt" dump ["numpy-1"; "main"]).
  - reflexivity.
  - reflexivity.
  - discriminate.
Defined.

(** The file of numpy-base starts with [numpy-] and with [numpy-base-]. *)
Lemma specfile_package_filter_dump :
  spec_urls read_dump "env.txt" ["numpy"; "numpy-base"] []
    = SpecOk ["https://repo.example/main/numpy-1.18.0-0.tar.bz2";
              "https://repo.example/main/numpy-base-1.18.0-0.tar.bz2";
              "https://repo.example/main/numpy-base-1.18.0-0.tar.bz2"].
Proof.
  apply (specfile_package_filter read_dump "env.txt" dump
                                 ["numpy"; "numpy-base"] []).
  - reflexivity.
  - reflexivity.
  - discriminate.
  - repeat constructor; cbn [In]; intros H;
      repeat (destruct H as [H|H]; [discriminate H|]); exact H.
Defined.

End MoreFixtures.

(** ** The marked count at the ends of the history *)

Section MarkedBounds.

Variable w : World.

Lemma marked_run (path tag : string) (post_commit o : Z) (out : string)
      (st : state) :
  path_exists w path = true ->
  filter_commit post_commit = (o, true) ->
  query_log w path None = Ok out ->
  git_commit_from_offset w path tag post_commit st
    = (line <- lift (of_option IndexError
                       (PyStr.index (PyStr.splitlines out) o)) ;;
       '(rev, message) <- lift (unpack2 (PyStr.split_max " " 1 line)) ;;
       chdir (cwd st) ;; ret rev)%prog (ran st path [log_cmd None]).
Proof.
  intros Hp Hdec Hq.
  rewrite resolve_enter by exact Hp. cbv zeta.
  pose proof (filter_commit_marked _ _ Hdec) as Hnz.
  apply Z.eqb_neq in Hnz. rewrite Hnz, Hdec. cbn [fst snd].
  unfold bind at 1. rewrite git_log_run. cbn [cwd ran].
  rewrite Hq, (query_ok_started _ _ _ _ Hq).
  now rewrite ran_ran.
Qed.

(** X21: the marked count is not checked against the history either.  With
    [n] commits, indexing fails exactly when the decoded offset is [n] or
    more, or below [- n]; a negative offset from [- n] on counts from the
    oldest commit, and the hash of the entry at position [n + offset] is
    returned. *)
Theorem marked_count_bounds :
  forall (path tag : string) (post_commit o : Z) (out : string)
         (lines : list string) (st : state),
    path_exists w path = true ->
    filter_commit post_commit = (o, true) ->
    query_log w path None = Ok out ->
    PyStr.splitlines out = lines ->
    (fst (git_commit_from_offset w path tag post_commit st) = Raise IndexError
     <-> o < - Z.of_nat (List.length lines) \/ Z.of_nat (List.length lines) <= o)
    /\ (forall hash subject,
           - Z.of_nat (List.length lines) <= o < 0 ->
           entry_at lines (Z.of_nat (List.length lines) + o)
             = Some (log_line hash subject) ->
           PyStr.contains " " hash = false ->
           git_commit_from_offset w path tag post_commit st
             = (Ok hash, ran st (cwd st) [log_cmd None])).
Proof.
  intros path tag post_commit o out lines st Hp Hdec Hq Hlines.
  rewrite (marked_run path tag post_commit o out st Hp Hdec Hq), Hlines.
  split.
  - unfold bind at 1. unfold lift at 1.
    destruct (PyStr.index lines o) as [line|] eqn:Hi; cbn [of_option].
    + split.
      * unfold bind, lift, chdir, ret.
        destruct (PyStr.split_max " " 1 line) as [|a [|b [|x l]]];
          cbn; discriminate.
      * intros Hout. rewrite index_out_of_range in Hi by exact Hout.
        discriminate.
    + split; [|reflexivity]. intros _.
      destruct (Z_lt_le_dec o (- Z.of_nat (List.length lines))) as [Hlo|Hlo];
        [now left|].
      destruct (Z_lt_le_dec o (Z.of_nat (List.length lines))) as [Hhi|Hhi];
        [|now right].
      destruct (index_in_range lines o) as [x Hx]; [lia|congruence].
  - intros hash subject Hrange Hentry Hhash.
    unfold bind at 1. unfold lift at 1.
    rewrite index_negative by exact Hrange.
    unfold entry_at in Hentry.
    destruct (Z.of_nat (List.length lines) + o <? 0); [discriminate|].
    rewrite Hentry. cbn [of_option].
    rewrite (resolve_leave _ hash subject) by (now apply split_log_line).
    now rewrite ran_ran, app_nil_r.
Qed.

End MarkedBounds.

(** ** The tag of a decoded version is one path component *)

Section TagComponent.

Lemma basename_no_slash (p : string) : has_char "/" (PyStr.basename p) = false.
Proof.
  induction p as [|c p IH]; [reflexivity|].
  cbn [PyStr.basename]. rewrite contains_char.
  destruct (has_char "/" p) eqn:Hp; [exact IH|].
  destruct (Ascii.eqb c "/") eqn:Hc; [exact Hp|].
  cbn [has_char]. now rewrite Ascii.eqb_sym, Hc, Hp.
Qed.

Lemma split_piece_no_char (c : ascii) (sep s : string) (ps : list string)
      (k : nat) (p : string) :
  has_char c s = false ->
  PyStr.split sep s = ps -> nth_error ps k = Some p -> has_char c p = false.
Proof.
  intros Hs <- Hk.
  pose proof (split_go_pieces c sep s None 0 Hs) as Hall.
  rewrite Forall_forall in Hall. apply Hall.
  eapply nth_error_In. exact Hk.
Qed.

(** X22: the tag that [Package.version] returns never holds a slash, so the
    directory name the main program builds from it stays one path
    component. *)
Theorem version_tag_no_slash :
  forall (filename tag : string) (n : Z),
    version filename = Ok (tag, n) -> has_char "/" tag = false.
Proof.
  intros filename tag n. unfold version.
  pose proof (basename_no_slash filename) as Hb.
  destruct (PyStr.split "-" (PyStr.basename filename))
    as [|a [|base [|c [|d l]]]] eqn:Hsplit;
    cbn [unpack3 rbind]; try discriminate.
  assert (Hbase : has_char "/" base = false)
    by (apply (split_piece_no_char "/" "-" _ _ 1%nat base Hb Hsplit);
        reflexivity).
  destruct (PyStr.contains ".dev" base).
  - destruct (PyStr.split ".dev" base) as [|t [|digits [|y l]]] eqn:Hdot;
      cbn [unpack2 rbind]; try discriminate.
    destruct (PyStr.int digits); cbn [of_option rbind]; [|discriminate].
    intros H. injection H as <- _.
    apply (split_piece_no_char "/" ".dev" _ _ 0%nat t Hbase Hdot).
    reflexivity.
  - destruct (PyStr.contains "dev" base).
    + destruct (PyStr.split "dev" base) as [|t [|digits [|y l]]];
        cbn [unpack2 rbind]; try discriminate.
      destruct (PyStr.split "." t) as [|mj [|mn [|z l]]];
        cbn [unpack2 rbind]; try discriminate.
      destruct (PyStr.int mj); cbn [of_option rbind]; [|discriminate].
      destruct (PyStr.int mn); cbn [of_option rbind]; [|discriminate].
      destruct (PyStr.int digits); cbn [of_option rbind]; [|discriminate].
      intros H. injection H as <- _.
      cbn [has_char]. rewrite has_char_app. cbn [has_char].
      now rewrite !str_no_slash.
    + intros H. injection H as <- _. exact Hbase.
Qed.

Lemma marked_count_bounds_fixture :
  fst (git_commit_from_offset fixture repo "1.0.0" (encode_anomalous 5) st0)
    = Raise IndexError
  /\ git_commit_from_offset fixture repo "1.0.0" (encode_anomalous (-1)) st0
     = (Ok "c1", ran st0 (cwd st0) [log_cmd None]).
Proof.
  split.
  - apply (marked_count_bounds fixture repo "1.0.0" (encode_anomalous 5) 5
             head_history
             ["c5 Add docs"; "c4 Fix build"; "c3 Start 1.1";
              "c2 Release 1.0.0"; "c1 Initial commit"] st0);
      try reflexivity.
    right. cbn. lia.
  - apply (marked_count_bounds fixture repo "1.0.0" (encode_anomalous (-1)) (-1)
             head_history
             ["c5 Add docs"; "c4 Fix build"; "c3 Start 1.1";
              "c2 Release 1.0.0"; "c1 Initial commit"] st0)
      with (subject := "Initial commit");
      try reflexivity.
    cbn. lia.
Defined.

Lemma version_tag_no_slash_astropy : has_char "/" "v4.0" = false.
Proof.
  apply (version_tag_no_slash "/pkgs/astropy-4.1dev500-0" "v4.0"
                              (encode_anomalous 500)).
  reflexivity.
Defined.

End TagComponent.
